(** * AI quiz backend: the AI service and the quiz routes

    A shallow embedding of [services/ai.service.js] (the retry helper, the
    JSON extraction, the provider adapter and the three prompt pipelines) and
    of the handlers of [routes/quiz.routes.js] that talk to the service
    (generate, submit, retry, hint), followed by the properties proved
    about them.  The database is outside the model: a handler takes what a
    query returned as an argument, and the two writes of the submission
    routes go through an interface that tells whether a write resolved.

    JavaScript values are modelled as parsed JSON plus [undefined]; numbers
    are IEEE binary64 (Rocq's primitive floats); strings are byte strings
    holding UTF-8; exceptions are an error monad.  Promises are run to
    completion: an [async] function is a state transformer over the world
    it talks to. *)

From Stdlib Require Import ZArith List String Ascii Bool Lia.
From Stdlib Require Import DecimalString Permutation Sorted.
From Stdlib Require Import PrimFloat Floats.SpecFloat Floats.FloatOps.
From Stdlib Require Import Floats.FloatAxioms.
Import ListNotations.
Local Open Scope string_scope.
Set Warnings "-register-all,-inexact-float".

(* ================================================================== *)
(** * Part I: definitions                                              *)
(* ================================================================== *)

(** ** Exceptions *)

(** The exceptions that can travel through the modelled code.  The message
    of a [SyntaxError] or [TypeError] is chosen by the engine and is not
    modelled; an [Error] carries the message the source gives it.
    [PrismaClientValidationError] is what [prisma.*.create] raises for a
    value that does not fit the column it is written to. *)
Inductive JSError : Type :=
| SyntaxError
| TypeError
| Error (message : string)
| PrismaClientValidationError.

Inductive Exc (A : Type) : Type :=
| Return (a : A)
| Throw (e : JSError).

Arguments Return {A} a.
Arguments Throw {A} e.

Definition bindE {A B : Type} (m : Exc A) (k : A -> Exc B) : Exc B :=
  match m with
  | Return a => k a
  | Throw e => Throw e
  end.

Declare Scope exc_scope.
Delimit Scope exc_scope with exc.
Notation "x <- m ;; k" := (bindE m (fun x => k))
  (at level 61, m at next level, right associativity) : exc_scope.
Local Open Scope exc_scope.

Fixpoint mapE {A B : Type} (f : A -> Exc B) (l : list A) : Exc (list B) :=
  match l with
  | [] => Return []
  | a :: l' => b <- f a ;; bs <- mapE f l' ;; Return (b :: bs)
  end.

(** ** JavaScript values *)

Module JS.

(** A value produced by [JSON.parse] (or written as a literal of the same
    shape).  An object keeps its members in source order; a repeated key is
    resolved by [lookup_last]. *)
Inductive JSON : Type :=
| JNull
| JBool (b : bool)
| JNum (x : float)
| JStr (s : string)
| JArr (items : list JSON)
| JObj (props : list (string * JSON)).

(** A JavaScript value: [None] is [undefined]. *)
Definition JSVal : Type := option JSON.

(** The double nearest to an integer (exact below 2^53). *)
Definition float_of_Z (z : Z) : float :=
  SF2Prim (binary_normalize prec emax z 0 false).

Definition float_of_nat (n : nat) : float := float_of_Z (Z.of_nat n).

(** ToBoolean. *)
Definition truthy (v : JSVal) : bool :=
  match v with
  | None => false
  | Some JNull => false
  | Some (JBool b) => b
  | Some (JNum x) => negb (is_zero x || is_nan x)
  | Some (JStr s) => negb (s =? "")
  | Some (JArr _) => true
  | Some (JObj _) => true
  end.

(** [a || b] *)
Definition js_or (a b : JSVal) : JSVal := if truthy a then a else b.

(** [a || b] where [b] is a value that is not [undefined]. *)
Definition js_or_value (a : JSVal) (b : JSON) : JSON :=
  match a with
  | Some x => if truthy a then x else b
  | None => b
  end.

Definition nullish (v : JSVal) : bool :=
  match v with
  | None => true
  | Some JNull => true
  | Some _ => false
  end.

(** [a ?? b] *)
Definition js_coalesce (a b : JSVal) : JSVal := if nullish a then b else a.

(** [a ?? b] where [b] is a value that is not [undefined]. *)
Definition js_coalesce_value (a : JSVal) (b : JSON) : JSON :=
  match a with
  | Some x => if nullish a then b else x
  | None => b
  end.

(** [typeof v] *)
Definition typeof (v : JSVal) : string :=
  match v with
  | None => "undefined"
  | Some JNull => "object"
  | Some (JBool _) => "boolean"
  | Some (JNum _) => "number"
  | Some (JStr _) => "string"
  | Some (JArr _) => "object"
  | Some (JObj _) => "object"
  end.

(** The value bound to [k]; the last binding wins, as in [JSON.parse]. *)
Definition lookup_last (k : string) (props : list (string * JSON)) : JSVal :=
  fold_left (fun acc kv => if fst kv =? k then Some (snd kv) else acc)
            props None.

(** [o.k] for the identifier-named properties the source reads.  Reading a
    property of [null] or [undefined] throws; numbers and booleans have no
    such property; strings and arrays have [length].  (The length of a
    string counts bytes here and UTF-16 units in JavaScript: the two agree
    on being zero.) *)
Definition get_prop (o : JSVal) (k : string) : Exc JSVal :=
  match o with
  | None => Throw TypeError
  | Some JNull => Throw TypeError
  | Some (JObj props) => Return (lookup_last k props)
  | Some (JArr items) =>
      if k =? "length" then Return (Some (JNum (float_of_nat (List.length items))))
      else Return None
  | Some (JStr s) =>
      if k =? "length" then Return (Some (JNum (float_of_nat (String.length s))))
      else Return None
  | Some (JBool _) => Return None
  | Some (JNum _) => Return None
  end.

(** [o?.k] *)
Definition get_prop_opt (o : JSVal) (k : string) : JSVal :=
  match get_prop o k with
  | Return v => v
  | Throw _ => None
  end.

Definition index_key (i : nat) : string :=
  NilEmpty.string_of_uint (Nat.to_uint i).

(** [o[i]] for a non-nullish [o] and an array index [i].  An array yields
    its element, a string its [i]-th unit, an object the member named by
    the decimal form of [i]. *)
Definition get_index (o : JSON) (i : nat) : JSVal :=
  match o with
  | JArr items => nth_error items i
  | JStr s =>
      match String.get i s with
      | Some c => Some (JStr (String c ""))
      | None => None
      end
  | JObj props => lookup_last (index_key i) props
  | JNull => None
  | JBool _ => None
  | JNum _ => None
  end.

(** [a === b].  Arrays and objects compare by reference; every array or
    object met here is a separate result of [JSON.parse] or a fresh literal,
    so two of them are never the same reference. *)
Definition strict_eq (a b : JSVal) : bool :=
  match a, b with
  | None, None => true
  | Some JNull, Some JNull => true
  | Some (JBool x), Some (JBool y) => Bool.eqb x y
  | Some (JNum x), Some (JNum y) => PrimFloat.eqb x y
  | Some (JStr x), Some (JStr y) => (x =? y)
  | _, _ => false
  end.

(** SameValueZero, the key comparison of [Map]. *)
Definition same_value_zero (a b : JSVal) : bool :=
  match a, b with
  | Some (JNum x), Some (JNum y) => PrimFloat.eqb x y || (is_nan x && is_nan y)
  | _, _ => strict_eq a b
  end.

(** A [Map]: entries in insertion order, keys pairwise different. *)
Definition Map : Type := list (JSVal * JSVal).

Fixpoint Map_set (m : Map) (k v : JSVal) : Map :=
  match m with
  | [] => [(k, v)]
  | (k', v') :: m' =>
      if same_value_zero k' k then (k', v) :: m'
      else (k', v') :: Map_set m' k v
  end.

Fixpoint Map_get (m : Map) (k : JSVal) : JSVal :=
  match m with
  | [] => None
  | (k', v') :: m' => if same_value_zero k' k then v' else Map_get m' k
  end.

(** [new Map(entries)] *)
Definition Map_new (entries : list (JSVal * JSVal)) : Map :=
  fold_left (fun m kv => Map_set m (fst kv) (snd kv)) entries [].

End JS.

(** ** Strings *)

Module Text.

Definition code (c : ascii) : N := N_of_ascii c.

Definition starts_with (p s : string) : bool := String.prefix p s.

Fixpoint drop (n : nat) (s : string) : string :=
  match n, s with
  | O, _ => s
  | S n', String _ r => drop n' r
  | S _, EmptyString => EmptyString
  end.

(** One white-space character at the head of [s], removed.  The set is
    ECMAScript's WhiteSpace and LineTerminator, which is also what [\s]
    matches and what [trim] removes; the characters outside ASCII are
    recognised by their UTF-8 encodings. *)
Definition strip_space (s : string) : option string :=
  match s with
  | EmptyString => None
  | String c r =>
      let n := code c in
      if ((9 <=? n) && (n <=? 13) || (n =? 32))%N then Some r
      else
        match r with
        | EmptyString => None
        | String c1 r1 =>
            let n1 := code c1 in
            if ((n =? 194) && (n1 =? 160))%N then Some r1          (* U+00A0 *)
            else
              match r1 with
              | EmptyString => None
              | String c2 r2 =>
                  let n2 := code c2 in
                  if ((n =? 225) && (n1 =? 154) && (n2 =? 128)          (* U+1680 *)
                      || (n =? 226) && (n1 =? 128)
                         && ((128 <=? n2) && (n2 <=? 138)               (* U+2000..U+200A *)
                             || (n2 =? 168) || (n2 =? 169)              (* U+2028, U+2029 *)
                             || (n2 =? 175))                            (* U+202F *)
                      || (n =? 226) && (n1 =? 129) && (n2 =? 159)       (* U+205F *)
                      || (n =? 227) && (n1 =? 128) && (n2 =? 128)       (* U+3000 *)
                      || (n =? 239) && (n1 =? 187) && (n2 =? 191))%N    (* U+FEFF *)
                  then Some r2
                  else None
              end
        end
  end.

Fixpoint trim_start_fuel (fuel : nat) (s : string) : string :=
  match fuel with
  | O => s
  | S fuel' =>
      match strip_space s with
      | Some r => trim_start_fuel fuel' r
      | None => s
      end
  end.

Definition trimStart (s : string) : string :=
  trim_start_fuel (String.length s) s.

(** [s] is white space from end to end. *)
Definition all_space (s : string) : bool :=
  match trimStart s with
  | EmptyString => true
  | String _ _ => false
  end.

Fixpoint trimEnd (s : string) : string :=
  match s with
  | EmptyString => EmptyString
  | String c r => if all_space s then EmptyString else String c (trimEnd r)
  end.

(** [s.trim()] *)
Definition trim (s : string) : string := trimEnd (trimStart s).

Definition lower_ascii (c : ascii) : ascii :=
  let n := code c in
  if ((65 <=? n) && (n <=? 90))%N then ascii_of_N (n + 32) else c.

(** [s.toLowerCase()] on the ASCII letters.  JavaScript also lowers
    letters outside ASCII; no such letter lowers to a string made of ASCII
    letters that occur in a provider name, so a selector with one is
    rejected by the constructor in both. *)
Fixpoint toLowerCase (s : string) : string :=
  match s with
  | EmptyString => EmptyString
  | String c r => String (lower_ascii c) (toLowerCase r)
  end.

(** The text in front of the first occurrence of [needle]. *)
Fixpoint before_first (needle s : string) : option string :=
  if starts_with needle s then Some EmptyString
  else
    match s with
    | EmptyString => None
    | String c r =>
        match before_first needle r with
        | Some t => Some (String c t)
        | None => None
        end
    end.

(** Leftmost match: [f] tried at every start position, left to right. *)
Fixpoint search {A : Type} (f : string -> option A) (s : string) : option A :=
  match f s with
  | Some a => Some a
  | None =>
      match s with
      | EmptyString => None
      | String _ r => search f r
      end
  end.

Definition fence : string := "```".

(** The lazy group [([\s\S]*?)] followed by the closing fence: the
    shortest text in front of a fence. *)
Definition lazy_until_fence (s : string) : option string :=
  before_first fence s.

(** The greedy [\s*] followed by the rest of the pattern: one more
    white-space character is tried first, and given back when the rest
    does not match after it. *)
Fixpoint greedy_spaces (fuel : nat) (s : string) : option string :=
  match fuel with
  | O => lazy_until_fence s
  | S fuel' =>
      match strip_space s with
      | Some r =>
          match greedy_spaces fuel' r with
          | Some captured => Some captured
          | None => lazy_until_fence s
          end
      | None => lazy_until_fence s
      end
  end.

Definition json_fence_at (s : string) : option string :=
  if starts_with "```json" s
  then let r := drop 7 s in greedy_spaces (String.length r) r
  else None.

Definition any_fence_at (s : string) : option string :=
  if starts_with fence s then lazy_until_fence (drop 3 s) else None.

(** Group 1 of [text.match(/```json\s*([\s\S]*?)```/)], [None] for no
    match. *)
Definition match_json_fence (text : string) : option string :=
  search json_fence_at text.

(** Group 1 of [text.match(/```([\s\S]*?)```/)]. *)
Definition match_any_fence (text : string) : option string :=
  search any_fence_at text.

End Text.

(** ** [JSON.parse] *)

Module JSONParser.
Import JS Text.

Definition is_digit (c : ascii) : bool :=
  ((48 <=? code c) && (code c <=? 57))%N.

Definition digit_val (c : ascii) : Z := Z.of_N (code c) - 48.

(** Reads decimal digits: the number read so far, how many digits, and
    the rest of the text. *)
Fixpoint take_digits (acc cnt : Z) (s : string) : Z * Z * string :=
  match s with
  | EmptyString => (acc, cnt, s)
  | String c r =>
      if is_digit c then take_digits (acc * 10 + digit_val c)%Z (cnt + 1)%Z r
      else (acc, cnt, s)
  end.

(** The double nearest to [m * 10^e] (ties to even), for a numeral of
    [digits] digits with [0 <= m < 10^digits].  The two shortcuts only
    keep the powers of ten small: above 10^400 every nonzero numeral is
    infinite, below 10^-400 every numeral rounds to zero. *)
Definition decimal_to_float (neg : bool) (m digits e : Z) : float :=
  let magnitude :=
    if (m =? 0)%Z then zero
    else if (400 <? e)%Z then infinity
    else if (e + digits <? -400)%Z then zero
    else if (0 <=? e)%Z then float_of_Z (m * 10 ^ e)
    else
      let p := (10 ^ (- e))%Z in
      let s := (64 + Z.log2_up p)%Z in
      let n := Z.shiftl m s in
      let q := (n / p)%Z in
      let sticky := if (n mod p =? 0)%Z then 0%Z else 1%Z in
      SF2Prim (binary_normalize prec emax (2 * q + sticky) (- s - 1) false)
  in
  if neg then (- magnitude)%float else magnitude.

(** A JSON number: an optional minus sign; a single zero, or a nonzero
    digit and further digits; optionally a point and one or more digits;
    optionally [e] or [E], a sign and one or more digits. *)
Definition parse_number (s : string) : option (float * string) :=
  let '(neg, s1) :=
    match s with
    | String c r => if (code c =? 45)%N then (true, r) else (false, s)
    | EmptyString => (false, s)
    end in
  match s1 with
  | EmptyString => None
  | String c r =>
      if negb (is_digit c) then None
      else
        let '(ip, icnt, s2) :=
          if (code c =? 48)%N then (0%Z, 1%Z, r) else take_digits 0 0 s1 in
        let fraction :=
          match s2 with
          | String d r2 =>
              if (code d =? 46)%N then
                let '(m, fcnt, s3) := take_digits ip 0 r2 in
                if (fcnt =? 0)%Z then None else Some (m, fcnt, s3)
              else Some (ip, 0%Z, s2)
          | EmptyString => Some (ip, 0%Z, s2)
          end in
        match fraction with
        | None => None
        | Some (m, fcnt, s3) =>
            let exponent :=
              match s3 with
              | String x r3 =>
                  if ((code x =? 101) || (code x =? 69))%N then
                    let '(eneg, r4) :=
                      match r3 with
                      | String g r3' =>
                          if (code g =? 45)%N then (true, r3')
                          else if (code g =? 43)%N then (false, r3')
                          else (false, r3)
                      | EmptyString => (false, r3)
                      end in
                    let '(ev, ecnt, s5) := take_digits 0 0 r4 in
                    if (ecnt =? 0)%Z then None
                    else Some (if eneg then (- ev)%Z else ev, s5)
                  else Some (0%Z, s3)
              | EmptyString => Some (0%Z, s3)
              end in
            match exponent with
            | None => None
            | Some (e, rest) =>
                Some (decimal_to_float neg m (icnt + fcnt) (e - fcnt), rest)
            end
        end
  end.

(** The pieces of a string literal: a byte taken as it stands, or a
    UTF-16 unit written as [\uXXXX]. *)
Inductive StrItem : Type :=
| Raw (c : ascii)
| Unit16 (u : N).

Definition hex_val (c : ascii) : option N :=
  let n := code c in
  if ((48 <=? n) && (n <=? 57))%N then Some (n - 48)%N
  else if ((65 <=? n) && (n <=? 70))%N then Some (n - 55)%N
  else if ((97 <=? n) && (n <=? 102))%N then Some (n - 87)%N
  else None.

Definition hex4 (a b c d : ascii) : option N :=
  match hex_val a, hex_val b, hex_val c, hex_val d with
  | Some x, Some y, Some z, Some w => Some (((x * 16 + y) * 16 + z) * 16 + w)%N
  | _, _, _, _ => None
  end.

Definition cons_item (i : StrItem) (r : option (list StrItem * string))
  : option (list StrItem * string) :=
  match r with
  | Some (l, rest) => Some (i :: l, rest)
  | None => None
  end.

(** The text after an opening quote, up to the closing one. *)
Fixpoint string_items (s : string) : option (list StrItem * string) :=
  match s with
  | EmptyString => None
  | String c r =>
      let n := code c in
      if (n =? 34)%N then Some ([], r)
      else if (n <? 32)%N then None
      else if (n =? 92)%N then
        match r with
        | EmptyString => None
        | String e r1 =>
            let k := code e in
            if ((k =? 34) || (k =? 92) || (k =? 47))%N
            then cons_item (Raw e) (string_items r1)
            else if (k =? 98)%N then cons_item (Raw (ascii_of_N 8)) (string_items r1)
            else if (k =? 102)%N then cons_item (Raw (ascii_of_N 12)) (string_items r1)
            else if (k =? 110)%N then cons_item (Raw (ascii_of_N 10)) (string_items r1)
            else if (k =? 114)%N then cons_item (Raw (ascii_of_N 13)) (string_items r1)
            else if (k =? 116)%N then cons_item (Raw (ascii_of_N 9)) (string_items r1)
            else if (k =? 117)%N then
              match r1 with
              | String h1 (String h2 (String h3 (String h4 r5))) =>
                  match hex4 h1 h2 h3 h4 with
                  | Some u => cons_item (Unit16 u) (string_items r5)
                  | None => None
                  end
              | _ => None
              end
            else None
        end
      else cons_item (Raw c) (string_items r)
  end.

Definition byte (n : N) : string := String (ascii_of_N n) EmptyString.

(** UTF-8 of a code point; a lone surrogate gets the three-byte form. *)
Definition utf8 (cp : N) : string :=
  if (cp <? 128)%N then byte cp
  else if (cp <? 2048)%N then byte (192 + cp / 64) ++ byte (128 + cp mod 64)
  else if (cp <? 65536)%N then
    byte (224 + cp / 4096) ++ byte (128 + (cp / 64) mod 64) ++ byte (128 + cp mod 64)
  else
    byte (240 + cp / 262144) ++ byte (128 + (cp / 4096) mod 64)
    ++ byte (128 + (cp / 64) mod 64) ++ byte (128 + cp mod 64).

Definition is_high (u : N) : bool := ((55296 <=? u) && (u <=? 56319))%N.
Definition is_low (u : N) : bool := ((56320 <=? u) && (u <=? 57343))%N.

Fixpoint encode_items (l : list StrItem) : string :=
  match l with
  | [] => EmptyString
  | Raw c :: r => String c (encode_items r)
  | Unit16 h :: r =>
      match r with
      | Unit16 lo :: r' =>
          if is_high h && is_low lo
          then utf8 (65536 + (h - 55296) * 1024 + (lo - 56320)) ++ encode_items r'
          else utf8 h ++ encode_items r
      | _ => utf8 h ++ encode_items r
      end
  end.

Definition parse_string (s : string) : option (string * string) :=
  match string_items s with
  | Some (l, rest) => Some (encode_items l, rest)
  | None => None
  end.

(** JSON white space: space, tab, line feed, carriage return. *)
Fixpoint skip_ws (s : string) : string :=
  match s with
  | EmptyString => s
  | String c r =>
      let n := code c in
      if ((n =? 32) || (n =? 9) || (n =? 10) || (n =? 13))%N then skip_ws r else s
  end.

Definition head_is (n : N) (s : string) : option string :=
  match s with
  | String c r => if (code c =? n)%N then Some r else None
  | EmptyString => None
  end.

(** Recursive descent; [fuel] bounds the depth of the calls and every
    second call at least consumes a character. *)
Fixpoint parse_value (fuel : nat) (s : string) : option (JSON * string) :=
  match fuel with
  | O => None
  | S fuel' =>
      let s0 := skip_ws s in
      match s0 with
      | EmptyString => None
      | String c r =>
          let n := code c in
          if (n =? 123)%N then
            match head_is 125 (skip_ws r) with
            | Some r' => Some (JObj [], r')
            | None => parse_members fuel' r []
            end
          else if (n =? 91)%N then
            match head_is 93 (skip_ws r) with
            | Some r' => Some (JArr [], r')
            | None => parse_items fuel' r []
            end
          else if (n =? 34)%N then
            match parse_string r with
            | Some (str, r') => Some (JStr str, r')
            | None => None
            end
          else if starts_with "true" s0 then Some (JBool true, drop 4 s0)
          else if starts_with "false" s0 then Some (JBool false, drop 5 s0)
          else if starts_with "null" s0 then Some (JNull, drop 4 s0)
          else
            match parse_number s0 with
            | Some (x, r') => Some (JNum x, r')
            | None => None
            end
      end
  end
with parse_items (fuel : nat) (s : string) (acc : list JSON)
  : option (JSON * string) :=
  match fuel with
  | O => None
  | S fuel' =>
      match parse_value fuel' s with
      | None => None
      | Some (v, r) =>
          match skip_ws r with
          | EmptyString => None
          | String c r' =>
              if (code c =? 44)%N then parse_items fuel' r' (v :: acc)
              else if (code c =? 93)%N then Some (JArr (rev (v :: acc)), r')
              else None
          end
      end
  end
with parse_members (fuel : nat) (s : string) (acc : list (string * JSON))
  : option (JSON * string) :=
  match fuel with
  | O => None
  | S fuel' =>
      match head_is 34 (skip_ws s) with
      | None => None
      | Some r =>
          match parse_string r with
          | None => None
          | Some (k, r1) =>
              match head_is 58 (skip_ws r1) with
              | None => None
              | Some r2 =>
                  match parse_value fuel' r2 with
                  | None => None
                  | Some (v, r3) =>
                      match skip_ws r3 with
                      | EmptyString => None
                      | String c r4 =>
                          if (code c =? 44)%N
                          then parse_members fuel' r4 ((k, v) :: acc)
                          else if (code c =? 125)%N
                          then Some (JObj (rev ((k, v) :: acc)), r4)
                          else None
                      end
                  end
              end
          end
      end
  end.

(** [JSON.parse(text)]: one value, white space around it, nothing else. *)
Definition JSON_parse (text : string) : Exc JSON :=
  match parse_value (2 * String.length text + 2) text with
  | Some (v, rest) =>
      match skip_ws rest with
      | EmptyString => Return v
      | String _ _ => Throw SyntaxError
      end
  | None => Throw SyntaxError
  end.

End JSONParser.

(** ** Asynchronous code *)

Module Async.

(** What a running request can observe and change: the state [W] of the
    world it talks to, and the delays of the timers it has waited for,
    oldest first. *)
Record Runtime (W : Type) : Type := mkRuntime {
  world : W;
  slept : list Z
}.
Arguments mkRuntime {W} world slept.
Arguments world {W} r.
Arguments slept {W} r.

(** An [async] function run to completion: it fulfils with a value or
    rejects with an exception, and leaves the runtime changed. *)
Definition Async (W A : Type) : Type := Runtime W -> Exc A * Runtime W.

Definition retA {W A : Type} (a : A) : Async W A :=
  fun rt => (Return a, rt).

Definition throwA {W A : Type} (e : JSError) : Async W A :=
  fun rt => (Throw e, rt).

Definition liftE {W A : Type} (m : Exc A) : Async W A :=
  fun rt => (m, rt).

Definition bindA {W A B : Type} (m : Async W A) (k : A -> Async W B)
  : Async W B :=
  fun rt =>
    match m rt with
    | (Return a, rt') => k a rt'
    | (Throw e, rt') => (Throw e, rt')
    end.

(** [await new Promise((res) => setTimeout(res, delay))] *)
Definition sleep {W : Type} (delay : Z) : Async W unit :=
  fun rt => (Return tt, mkRuntime (world rt) (slept rt ++ [delay])).

End Async.

Declare Scope async_scope.
Delimit Scope async_scope with async.
Notation "x <~ m ;; k" := (Async.bindA m (fun x => k))
  (at level 61, m at next level, right associativity) : async_scope.

(** ** The tables of the schema the routes read and write *)

Module Question.
Record t : Type := mk {
  id : string;
  quizId : string;
  questionText : string;
  correctAnswer : string;
  difficulty : string;
  options : JS.JSVal;
  questionNumber : Z
}.
End Question.

Module Quiz.
Record t : Type := mk {
  id : string;
  userId : string;
  grade : string;
  subject : string;
  difficulty : string;
  totalQuestions : Z;
  maxScore : Z;
  questions : list Question.t
}.
End Quiz.

(** ** services/ai.service.js *)

Module AI.
Import JS Text JSONParser Async.
Local Open Scope async_scope.

Definition nl : string := String (ascii_of_N 10) EmptyString.
Definition dq : string := String (ascii_of_N 34) EmptyString.

(** Lines joined by line feeds, for the template literals. *)
Fixpoint lines (l : list string) : string :=
  match l with
  | [] => EmptyString
  | [x] => x
  | x :: r => x ++ nl ++ lines r
  end.

(** *** The retry helper

    [retries] is a count; the test [retries <= 0] is its being zero.
    [delay] is in milliseconds. *)
Fixpoint withRetry {W A : Type} (fn : Async W A) (retries : nat) (delay : Z)
  : Async W A :=
  fun rt =>
    match fn rt with
    | (Return a, rt') => (Return a, rt')
    | (Throw err, rt') =>
        match retries with
        | O => (Throw err, rt')
        | S retries' =>
            (_ <~ sleep delay ;; withRetry fn retries' (delay * 2)) rt'
        end
    end.

(** The default parameters: [retries = 3, delay = 700]. *)
Definition default_retries : nat := 3.
Definition default_delay : Z := 700.

(** *** JSON extraction *)

Definition invalid_json_message : string := "❌ AI did not return valid JSON".

Definition extractJSON (text : string) : Exc JSON :=
  match JSON_parse text with
  | Return v => Return v
  | Throw _ =>
      match match_json_fence text with
      | Some group1 => JSON_parse group1
      | None =>
          match match_any_fence text with
          | Some group1 => JSON_parse group1
          | None => Throw (Error invalid_json_message)
          end
      end
  end.

(** *** What the service takes from outside the repository

    The three SDK clients and [JSON.stringify].  A client constructor is
    given the API key read from the environment and may itself throw. *)
Class SDK : Type := {
  Client : Type;
  new_Groq : option string -> Exc Client;
  new_OpenAI : option string -> Exc Client;
  new_GoogleGenerativeAI : option string -> Exc Client
}.

Class Serializer : Type := {
  JSON_stringify : JSON -> string
}.

(** [process.env] *)
Record Env : Type := mkEnv {
  AI_PROVIDER : option string;
  GROQ_API_KEY : option string;
  OPENAI_API_KEY : option string;
  OPENAI_MODEL : option string;
  GEMINI_API_KEY : option string;
  GEMINI_MODEL : option string
}.

(** [process.env.X || fallback]: unset and empty both take the fallback. *)
Definition env_or (v : option string) (fallback : string) : string :=
  match v with
  | Some s => if s =? "" then fallback else s
  | None => fallback
  end.

(** The requests a client sends. *)
Record ChatRequest : Type := mkChat {
  chat_model : string;
  messages : list (string * string);          (* role, content *)
  chat_temperature : float;
  response_format : option string             (* the [type] of the format *)
}.

Record GenerateRequest : Type := mkGenerate {
  gen_model : string;
  contents : list (string * list string);     (* role, text parts *)
  gen_temperature : float;
  maxOutputTokens : Z
}.

Inductive Request : Type :=
| ChatCompletionsCreate (r : ChatRequest)
| GenerateContent (r : GenerateRequest).

(** The backend: the requests sent so far, oldest first, and what it
    answers to a request given how many were sent before it.  A chat
    completion answers with the message contents of its choices, a
    content generation with its text; either may fail. *)
Record Remote : Type := mkRemote {
  sent : list Request;
  chat_reply : nat -> ChatRequest -> Exc (list string);
  generate_reply : nat -> GenerateRequest -> Exc string
}.

Definition record_request (r : Request) (w : Remote) : Remote :=
  mkRemote (sent w ++ [r]) (chat_reply w) (generate_reply w).

(** [await this.client.chat.completions.create(r)] *)
Definition chat_completions_create (r : ChatRequest)
  : Async Remote (list string) :=
  fun rt =>
    let w := world rt in
    (chat_reply w (List.length (sent w)) r,
     mkRuntime (record_request (ChatCompletionsCreate r) w) (slept rt)).

(** [await model.generateContent(r)] followed by [result.response.text()] *)
Definition generateContent (r : GenerateRequest) : Async Remote string :=
  fun rt =>
    let w := world rt in
    (generate_reply w (List.length (sent w)) r,
     mkRuntime (record_request (GenerateContent r) w) (slept rt)).

Definition temperature : float := 0.6%float.

Section Service.
Context {sdk : SDK} {serializer : Serializer}.

Record AIService : Type := mkService {
  provider : string;
  client : Client;
  model : string
}.

Definition invalid_provider_message : string :=
  "Invalid AI_PROVIDER. Use " ++ dq ++ "groq" ++ dq ++ ", " ++ dq ++ "openai"
  ++ dq ++ ", or " ++ dq ++ "gemini" ++ dq ++ ".".

(** [new AIService()].  The console lines are not modelled. *)
Definition constructor (env : Env) : Exc AIService :=
  let provider := toLowerCase (env_or (AI_PROVIDER env) "groq") in
  if provider =? "groq" then
    (c <- new_Groq (GROQ_API_KEY env) ;;
     Return (mkService provider c "llama-3.1-70b-versatile"))%exc
  else if provider =? "openai" then
    (c <- new_OpenAI (OPENAI_API_KEY env) ;;
     Return (mkService provider c (env_or (OPENAI_MODEL env) "gpt-4o-mini")))%exc
  else if provider =? "gemini" then
    (c <- new_GoogleGenerativeAI (GEMINI_API_KEY env) ;;
     Return (mkService provider c (env_or (GEMINI_MODEL env) "gemini-pro")))%exc
  else Throw (Error invalid_provider_message).

(** [export default new AIService()]: the module is evaluated when the
    server imports its routes, before it listens.  A process either never
    starts or serves with the one service built then. *)
Inductive Process : Type :=
| Crashed (e : JSError)
| Serving (service : AIService).

Definition start (env : Env) : Process :=
  match constructor env with
  | Return service => Serving service
  | Throw e => Crashed e
  end.

Definition json_instruction : string := nl ++ "Return strictly valid JSON only.".

(** One attempt of [askAI]: the function handed to [withRetry]. *)
Definition askAI_attempt (this : AIService) (system user : string)
  (wantsJSON : bool) : Async Remote string :=
  if (provider this =? "groq") || (provider this =? "openai") then
    choices <~ chat_completions_create
      (mkChat (model this)
              [("system", system); ("user", user)]
              temperature
              (if wantsJSON then Some "json_object" else None)) ;;
    match choices with
    | content :: _ => retA content
    | [] => throwA TypeError
    end
  else if provider this =? "gemini" then
    generateContent
      (mkGenerate (model this)
                  [("user",
                    [system ++ nl ++ nl ++ user
                     ++ (if wantsJSON then json_instruction else "")])]
                  temperature
                  1800)
  else throwA (Error "❌ Invalid AI provider configured.").

Definition askAI (this : AIService) (system user : string) (wantsJSON : bool)
  : Async Remote string :=
  withRetry (askAI_attempt this system user wantsJSON)
            default_retries default_delay.

Definition decimal (z : Z) : string := NilEmpty.string_of_int (Z.to_int z).

Definition no_questions_message : string := "❌ No quiz questions generated".

(** The check made on the extracted response:
    [!parsed.questions || parsed.questions.length === 0]. *)
Definition questions_of (parsed : JSON) : Exc JSVal :=
  (questions <- get_prop (Some parsed) "questions" ;;
   if negb (truthy questions) then Throw (Error no_questions_message)
   else
     len <- get_prop questions "length" ;;
     if strict_eq len (Some (JNum 0)) then Throw (Error no_questions_message)
     else Return questions)%exc.

Definition generateQuiz_systemPrompt (grade subject : string) (numQuestions : Z)
  : string :=
  lines
    [ "";
      "You are an expert quiz generator. ";
      "Generate exactly " ++ decimal numQuestions ++ " MCQs for Grade " ++ grade
        ++ " " ++ subject ++ ".";
      "";
      "Rules:";
      "- 4 options (A, B, C, D)";
      "- Include " ++ dq ++ "correctAnswer" ++ dq;
      "- Include " ++ dq ++ "difficulty" ++ dq ++ ": " ++ dq ++ "easy" ++ dq
        ++ " | " ++ dq ++ "medium" ++ dq ++ " | " ++ dq ++ "hard" ++ dq;
      "- MUST RETURN STRICT JSON ONLY.";
      "";
      "Example:";
      "{";
      "  " ++ dq ++ "questions" ++ dq ++ ": [";
      "    {";
      "      " ++ dq ++ "questionText" ++ dq ++ ": " ++ dq ++ dq ++ ",";
      "      " ++ dq ++ "options" ++ dq ++ ": [" ++ dq ++ "A" ++ dq ++ ", " ++ dq
        ++ "B" ++ dq ++ ", " ++ dq ++ "C" ++ dq ++ ", " ++ dq ++ "D" ++ dq ++ "],";
      "      " ++ dq ++ "correctAnswer" ++ dq ++ ": " ++ dq ++ "A" ++ dq ++ ",";
      "      " ++ dq ++ "difficulty" ++ dq ++ ": " ++ dq ++ "easy" ++ dq;
      "    }";
      "  ]";
      "}" ].

Definition generateQuiz_userPrompt (history : list JSON) : string :=
  match history with
  | _ :: _ =>
      lines [ "User's past performance: " ++ JSON_stringify (JArr history) ++ ".";
              "Adapt difficulty.";
              "Return ONLY JSON." ]
  | [] => lines [ "Generate high-quality questions."; "Return ONLY JSON." ]
  end.

(** [generateQuiz(grade, subject, numQuestions, difficulty, history)];
    [difficulty] is not read by the body. *)
Definition generateQuiz (this : AIService) (grade subject : string)
  (numQuestions : Z) (difficulty : string) (history : list JSON)
  : Async Remote JSVal :=
  raw <~ askAI this (generateQuiz_systemPrompt grade subject numQuestions)
                    (generateQuiz_userPrompt history) true ;;
  liftE (parsed <- extractJSON raw ;; questions_of parsed)%exc.

Definition evaluateQuiz_systemPrompt : string :=
  lines
    [ "";
      "You are an expert evaluator. Score the quiz and return STRICT JSON:";
      "";
      "{";
      "  " ++ dq ++ "score" ++ dq ++ ": number,";
      "  " ++ dq ++ "maxScore" ++ dq ++ ": number,";
      "  " ++ dq ++ "evaluations" ++ dq ++ ": [";
      "    {";
      "      " ++ dq ++ "questionText" ++ dq ++ ": " ++ dq ++ dq ++ ",";
      "      " ++ dq ++ "correctAnswer" ++ dq ++ ": " ++ dq ++ dq ++ ",";
      "      " ++ dq ++ "userAnswer" ++ dq ++ ": " ++ dq ++ dq ++ ",";
      "      " ++ dq ++ "isCorrect" ++ dq ++ ": boolean,";
      "      " ++ dq ++ "explanation" ++ dq ++ ": " ++ dq ++ dq;
      "    }";
      "  ],";
      "  " ++ dq ++ "improvements" ++ dq ++ ": [" ++ dq ++ dq ++ ", " ++ dq ++ dq ++ "]";
      "}" ].

(** The triples serialised into the evaluation prompt. *)
Fixpoint evaluateQuiz_triples (questions : list Question.t)
  (userAnswers : list JSVal) : list JSON :=
  match questions with
  | [] => []
  | q :: qs =>
      JObj [ ("questionText", JStr (Question.questionText q));
             ("correctAnswer", JStr (Question.correctAnswer q));
             ("userAnswer", js_or_value (List.hd None userAnswers) (JStr "")) ]
      :: evaluateQuiz_triples qs (List.tl userAnswers)
  end.

Definition evaluateQuiz_userPrompt (questions : list Question.t)
  (userAnswers : list JSVal) : string :=
  lines [ "Evaluate:";
          JSON_stringify (JArr (evaluateQuiz_triples questions userAnswers));
          "Return ONLY JSON." ].

Definition evaluateQuiz (this : AIService) (questions : list Question.t)
  (userAnswers : list JSVal) : Async Remote JSON :=
  raw <~ askAI this evaluateQuiz_systemPrompt
                    (evaluateQuiz_userPrompt questions userAnswers) true ;;
  liftE (extractJSON raw).

Definition generateHint_systemPrompt (subject grade : string) : string :=
  lines [ "";
          "You are a tutor. Give a hint but DO NOT reveal the answer.";
          "Grade: " ++ grade ++ ", Subject: " ++ subject ++ "." ].

Definition generateHint_userPrompt (questionText : string) : string :=
  lines [ "Question: " ++ questionText; "Give a short hint:" ].

Definition generateHint (this : AIService) (questionText subject grade : string)
  : Async Remote string :=
  raw <~ askAI this (generateHint_systemPrompt subject grade)
                    (generateHint_userPrompt questionText) false ;;
  retA (trim raw).

End Service.

End AI.

(** ** routes/quiz.routes.js *)

Module Routes.
Import JS Async AI.

(** *** POST /quiz/generate *)

(** One question as handed to [prisma.quiz.create]. *)
Record QuestionCreate : Type := mkQuestionCreate {
  qc_questionText : JSVal;
  qc_correctAnswer : JSVal;
  qc_difficulty : JSON;
  qc_options : JSON;
  qc_questionNumber : Z
}.

Record QuizCreate : Type := mkQuizCreate {
  qz_userId : string;
  qz_grade : string;
  qz_subject : string;
  qz_difficulty : string;
  qz_totalQuestions : Z;
  qz_maxScore : Z;
  qz_questions : list QuestionCreate
}.

(** [body("numQuestions").isInt({ min: 1, max: 50 })] *)
Definition valid_numQuestions (numQuestions : Z) : bool :=
  ((1 <=? numQuestions) && (numQuestions <=? 50))%Z.

Definition question_create (difficulty : string) (index : nat) (q : JSON)
  : Exc QuestionCreate :=
  (questionText <- get_prop (Some q) "questionText" ;;
   correctAnswer <- get_prop (Some q) "correctAnswer" ;;
   qdifficulty <- get_prop (Some q) "difficulty" ;;
   options <- get_prop (Some q) "options" ;;
   Return (mkQuestionCreate questionText correctAnswer
             (js_or_value qdifficulty (JStr difficulty))
             (js_or_value options (JArr []))
             (Z.of_nat index + 1)))%exc.

Fixpoint mapiE {A B : Type} (f : nat -> A -> Exc B) (i : nat) (l : list A)
  : Exc (list B) :=
  match l with
  | [] => Return []
  | a :: l' => (b <- f i a ;; bs <- mapiE f (S i) l' ;; Return (b :: bs))%exc
  end.

(** The [data] of [prisma.quiz.create], from the request and the
    questions the AI service returned; [map] exists on arrays only. *)
Definition quiz_data (userId grade subject : string) (numQuestions : Z)
  (difficulty : string) (aiQuestions : JSVal) : Exc QuizCreate :=
  match aiQuestions with
  | Some (JArr items) =>
      (questions <- mapiE (question_create difficulty) 0 items ;;
       Return (mkQuizCreate userId grade subject difficulty
                 numQuestions (numQuestions * 10) questions))%exc
  | _ => Throw TypeError
  end.


(** *** POST /quiz/submit *)

(** [a.questionNumber - b.questionNumber] as the comparison of a stable
    sort: a question goes in front of the first one it does not exceed. *)
Fixpoint insert_question (q : Question.t) (sorted : list Question.t)
  : list Question.t :=
  match sorted with
  | [] => [q]
  | x :: r =>
      if (Question.questionNumber q <=? Question.questionNumber x)%Z
      then q :: sorted
      else x :: insert_question q r
  end.

(** [[...quiz.questions].sort(...)] *)
Definition orderedQuestions (quiz : Quiz.t) : list Question.t :=
  fold_right insert_question [] (Quiz.questions quiz).

(** [(item) => [item.questionId, item.answer || ""]] *)
Definition answer_entry (item : JSON) : Exc (JSVal * JSVal) :=
  (questionId <- get_prop (Some item) "questionId" ;;
   answer <- get_prop (Some item) "answer" ;;
   Return (questionId, Some (js_or_value answer (JStr ""))))%exc.

(** [new Map((answers || []).map(...))]; [answers] passed [isArray]. *)
Definition answerMap (answers : list JSON) : Exc Map :=
  (entries <- mapE answer_entry answers ;; Return (Map_new entries))%exc.

Definition answer_of (m : Map) (question : Question.t) : JSVal :=
  Map_get m (Some (JStr (Question.id question))).

(** The answers sent to the evaluation, one per ordered question. *)
Definition userAnswers (m : Map) (ordered : list Question.t) : list JSVal :=
  map (fun question => Some (js_or_value (answer_of m question) (JStr "")))
      ordered.

(** One row of [questionSubmissions.create]. *)
Record QuestionSubmission : Type := mkQuestionSubmission {
  questionId : string;
  userAnswer : JSON;
  isCorrect : JSVal
}.

(** The callback of [orderedQuestions.map((question, index) => ...)]. *)
Definition question_submission (m : Map) (evaluationItems : JSON)
  (index : nat) (question : Question.t) : Exc QuestionSubmission :=
  let evaluationItem := js_or_value (get_index evaluationItems index) (JObj []) in
  (submitted_or_echoed <-
     (if nullish (answer_of m question)
      then get_prop (Some evaluationItem) "userAnswer"
      else Return (answer_of m question)) ;;
   let userAnswer := js_coalesce_value submitted_or_echoed (JStr "") in
   claimed <- get_prop (Some evaluationItem) "isCorrect" ;;
   let isCorrect :=
     if typeof claimed =? "boolean" then claimed
     else Some (JBool (strict_eq (Some userAnswer)
                                 (Some (JStr (Question.correctAnswer question))))) in
   Return (mkQuestionSubmission (Question.id question) userAnswer isCorrect))%exc.

(** The [data] of [prisma.quizSubmission.create]. *)
Record SubmissionData : Type := mkSubmissionData {
  sd_quizId : string;
  sd_userId : string;
  score : float;
  maxScore : float;
  percentage : float;
  improvements : JSON;
  questionSubmissions : list QuestionSubmission
}.

(** The fields [score] and [maxScore] of the data, as numbers.  The
    handler writes [evaluation.score || 0] and
    [evaluation.maxScore || quiz.maxScore] into the data whatever they
    are; the model follows the data only where both are JavaScript
    numbers, so that the percentage is an operation on two doubles, and
    ends the run with a validation error where one is not (the columns
    are DOUBLE PRECISION and INTEGER).  This leaves rows out and decides
    nothing about the rows it keeps: [Return x] says that the number [x]
    is in the data handed to [create], not that the column takes it. *)
Definition number_column (v : JSON) : Exc float :=
  match v with
  | JNum x => Return x
  | _ => Throw PrismaClientValidationError
  end.

(** [((evaluation.score || 0) / (evaluation.maxScore || quiz.maxScore)) * 100] *)
Definition percentage_of (score maxScore : float) : float :=
  (score / maxScore * 100)%float.

Definition submission_data (quiz : Quiz.t) (userId : string) (m : Map)
  (evaluation : JSON) : Exc SubmissionData :=
  let evaluationItems :=
    js_or_value (get_prop_opt (Some evaluation) "evaluations") (JArr []) in
  let improvements :=
    js_or_value (get_prop_opt (Some evaluation) "improvements") (JArr []) in
  (ai_score <- get_prop (Some evaluation) "score" ;;
   ai_maxScore <- get_prop (Some evaluation) "maxScore" ;;
   rows <- mapiE (question_submission m evaluationItems) 0
                 (orderedQuestions quiz) ;;
   score <- number_column (js_or_value ai_score (JNum 0)) ;;
   maxScore <- number_column
                 (js_or_value ai_maxScore (JNum (float_of_Z (Quiz.maxScore quiz)))) ;;
   Return (mkSubmissionData (Quiz.id quiz) userId score maxScore
             (percentage_of score maxScore) improvements rows))%exc.

(** The two writes of the submission routes.  The Prisma client is no
    code of this repository: all that is said of a write is that it
    resolves, the creation with the row it created, or rejects with an
    error. *)
Class Prisma : Type := {
  (** [prisma.quizSubmission.create({ data, include })] *)
  quizSubmission_create : SubmissionData -> Exc SubmissionData;
  (** [prisma.quiz.update({ where: { id }, data: { score } })] *)
  quiz_update : string -> float -> Exc unit
}.

(** What the handler answers; [Json] carries the row
    [prisma.quizSubmission.create] resolved with, of which the body of
    the response is made. *)
Inductive Reply : Type :=
| Json (submission : SubmissionData)
| Status (code : Z) (message : string)
| Failed (e : JSError).                        (* the [catch]: status 500 *)

Section Handlers.
Context {sdk : SDK} {serializer : Serializer} {prisma : Prisma}.
Local Open Scope async_scope.

(** The handler from the quiz lookup on: [found] is what
    [prisma.quiz.findUnique] returned for the [quizId] of the request, so
    that [quizId] is the id of the quiz found. *)
Definition submit (this : AIService) (found : option Quiz.t) (userId : string)
  (answers : list JSON) : Async Remote Reply :=
  match found with
  | None => retA (Status 404 "Quiz not found")
  | Some quiz =>
      if negb (Quiz.userId quiz =? userId) then retA (Status 403 "Unauthorized")
      else
        fun rt =>
          let attempt :=
            (m <~ liftE (answerMap answers) ;;
             evaluation <~ evaluateQuiz this (orderedQuestions quiz)
                             (userAnswers m (orderedQuestions quiz)) ;;
             data <~ liftE (submission_data quiz userId m evaluation) ;;
             submission <~ liftE (quizSubmission_create data) ;;
             updated <~ liftE (quiz_update (Quiz.id quiz) (score submission)) ;;
             retA submission) rt in
          match attempt with
          | (Return submission, rt') => (Return (Json submission), rt')
          | (Throw e, rt') => (Return (Failed e), rt')
          end
  end.

(** *** POST /quiz/retry/:quizId *)

(** [new Map((answers || []).map(...))] where [answers] was not
    validated: a falsy body field counts as no answers, and a truthy one
    that is not an array has no [map]. *)
Definition answerMap_unvalidated (answers : JSVal) : Exc Map :=
  match js_or answers (Some (JArr [])) with
  | Some (JArr items) => answerMap items
  | _ => Throw TypeError
  end.

(** The handler from the quiz lookup on.  It creates the submission as
    [submit] does and leaves the score of the quiz as it is; its [catch]
    differs from the one of [submit] only in the text it sends for an
    error without a message. *)
Definition retry (this : AIService) (found : option Quiz.t) (userId : string)
  (answers : JSVal) : Async Remote Reply :=
  match found with
  | None => retA (Status 404 "Quiz not found")
  | Some quiz =>
      if negb (Quiz.userId quiz =? userId) then retA (Status 403 "Unauthorized")
      else
        fun rt =>
          let attempt :=
            (m <~ liftE (answerMap_unvalidated answers) ;;
             evaluation <~ evaluateQuiz this (orderedQuestions quiz)
                             (userAnswers m (orderedQuestions quiz)) ;;
             data <~ liftE (submission_data quiz userId m evaluation) ;;
             liftE (quizSubmission_create data)) rt in
          match attempt with
          | (Return submission, rt') => (Return (Json submission), rt')
          | (Throw e, rt') => (Return (Failed e), rt')
          end
  end.

(** *** POST /quiz/generate *)

(** One past submission as the route reads it: the subject of its quiz,
    its percentage, the difficulty of its quiz. *)
Definition userHistory (pastQuizzes : list (string * float * string))
  : list JSON :=
  map (fun q =>
         JObj [ ("subject", JStr (fst (fst q)));
                ("score", JNum (snd (fst q)));
                ("difficulty", JStr (snd q)) ])
      pastQuizzes.

(** [Created] carries the data handed to [prisma.quiz.create]; the checks
    the database makes on its columns are not modelled. *)
Inductive GenerateReply : Type :=
| Created (d : QuizCreate)
| BadRequest                                   (* status 400 *)
| GenerateFailed (e : JSError).                (* the [catch]: status 500 *)

(** [notEmpty()] on [grade] and [subject], [isInt] on [numQuestions]. *)
Definition valid_generate (grade subject : string) (numQuestions : Z) : bool :=
  negb (grade =? "") && negb (subject =? "") && valid_numQuestions numQuestions.

(** The handler; [difficulty] is [None] when the body has none, and
    [pastQuizzes] is what [prisma.quizSubmission.findMany] returned. *)
Definition generate (this : AIService) (userId grade subject : string)
  (numQuestions : Z) (difficulty : option string)
  (pastQuizzes : list (string * float * string)) : Async Remote GenerateReply :=
  if negb (valid_generate grade subject numQuestions) then retA BadRequest
  else
    let difficulty :=
      match difficulty with
      | Some d => d
      | None => "medium"
      end in
    fun rt =>
      let attempt :=
        (aiQuestions <~ generateQuiz this grade subject numQuestions difficulty
                          (userHistory pastQuizzes) ;;
         liftE (quiz_data userId grade subject numQuestions difficulty
                          aiQuestions)) rt in
      match attempt with
      | (Return d, rt') => (Return (Created d), rt')
      | (Throw e, rt') => (Return (GenerateFailed e), rt')
      end.

(** *** GET /quiz/:quizId/hint/:questionId *)

Inductive HintReply : Type :=
| HintJson (hintText : string) (created : bool)
| HintStatus (code : Z) (message : string)
| HintFailed (e : JSError).                    (* the [catch]: status 500 *)

(** The handler from the quiz lookup on; [existing] is the text of the
    hint [prisma.hint.findFirst] returned for the question, if any.  The
    reply tells whether a hint was created. *)
Definition hint (this : AIService) (found : option Quiz.t)
  (userId questionId : string) (existing : option string)
  : Async Remote HintReply :=
  match found with
  | None => retA (HintStatus 404 "Quiz not found")
  | Some quiz =>
      if negb (Quiz.userId quiz =? userId)
      then retA (HintStatus 403 "Unauthorized")
      else
        match find (fun q => Question.id q =? questionId) (Quiz.questions quiz) with
        | None => retA (HintStatus 404 "Question not found")
        | Some question =>
            match existing with
            | Some text => retA (HintJson text false)
            | None =>
                fun rt =>
                  match generateHint this (Question.questionText question)
                                     (Quiz.subject quiz) (Quiz.grade quiz) rt with
                  | (Return hintText, rt') => (Return (HintJson hintText true), rt')
                  | (Throw e, rt') => (Return (HintFailed e), rt')
                  end
            end
        end
  end.

End Handlers.

End Routes.

(** ** The vocabulary of the specification

    Notions the specification uses when it speaks about the code, each
    defined on its own terms rather than through the code it is compared
    with. *)

Module Spec.
Import JS Text Async AI Routes.

(** The [i]-th item of the evaluations the AI returned; [None] when it
    returned none at that index. *)
Definition ai_item (evaluation : JSON) (i : nat) : JSVal :=
  match get_prop_opt (Some evaluation) "evaluations" with
  | Some items => get_index items i
  | None => None
  end.

(** The boolean an item states under [isCorrect], when it states one. *)
Definition explicit_isCorrect (item : JSVal) : option bool :=
  match item with
  | Some (JObj props) =>
      match lookup_last "isCorrect" props with
      | Some (JBool b) => Some b
      | _ => None
      end
  | _ => None
  end.

(** The answer text an item echoes. *)
Definition echoed_answer (item : JSVal) : JSVal :=
  match item with
  | Some (JObj props) => lookup_last "userAnswer" props
  | _ => None
  end.

(** The [evaluations] of a response that is an object holding an array
    under that key. *)
Definition evaluations_array (evaluation : JSON) : option (list JSON) :=
  match evaluation with
  | JObj props =>
      match lookup_last "evaluations" props with
      | Some (JArr items) => Some items
      | _ => None
      end
  | _ => None
  end.

(** Exact, case-sensitive equality of a stored answer with a text. *)
Definition same_text (answer : JSON) (text : string) : bool :=
  match answer with
  | JStr s => String.eqb s text
  | _ => false
  end.

(** The item of the request that answers the question [id]: the last one
    naming it. *)
Definition names_question (id : string) (item : JSON) : bool :=
  match item with
  | JObj props =>
      match lookup_last "questionId" props with
      | Some (JStr s) => String.eqb s id
      | _ => false
      end
  | _ => false
  end.

Definition submitted (answers : list JSON) (id : string) : option JSON :=
  find (names_question id) (rev answers).

Definition submitted_answer (item : JSON) : JSVal :=
  match item with
  | JObj props => lookup_last "answer" props
  | _ => None
  end.

(** The answer stored for a question: the submitted one, else the echoed
    one, else the empty text. *)
Definition stored_answer (m : Map) (item : JSVal) (question : Question.t)
  : JSON :=
  js_coalesce_value
    (if nullish (answer_of m question) then echoed_answer item
     else answer_of m question)
    (JStr "").

(** The key and the answer an item of the request stands for. *)
Definition entry_of (item : JSON) : JSVal * JSVal :=
  (get_prop_opt (Some item) "questionId",
   Some (js_or_value (get_prop_opt (Some item) "answer") (JStr ""))).

(** An item with the question text it echoes replaced. *)
Definition with_questionText (text : JSON) (item : JSON) : JSON :=
  match item with
  | JObj props => JObj (props ++ [("questionText", text)])
  | other => other
  end.

(** The items with their echoed question texts replaced by [texts], one
    per item for as long as there are texts. *)
Fixpoint retexted (texts items : list JSON) {struct items} : list JSON :=
  match items, texts with
  | item :: items', text :: texts' =>
      with_questionText text item :: retexted texts' items'
  | _, _ => items
  end.

(** The runtime once a timer of [delay] milliseconds has been waited for. *)
Definition after_sleep {W : Type} (delay : Z) (rt : Runtime W) : Runtime W :=
  mkRuntime (world rt) (slept rt ++ [delay]).

(** An operation that sets no timer of its own. *)
Definition sets_no_timer {W A : Type} (fn : Async W A) : Prop :=
  forall rt, slept (snd (fn rt)) = slept rt.

(** The questions numbered [n], in the order of the list. *)
Definition numbered (n : Z) (l : list Question.t) : list Question.t :=
  filter (fun q => (Question.questionNumber q =? n)%Z) l.

(** Non-decreasing question numbers. *)
Definition by_number (a b : Question.t) : Prop :=
  (Question.questionNumber a <= Question.questionNumber b)%Z.

(** The triple the evaluation prompt carries for a question. *)
Definition triple_of (m : Map) (question : Question.t) : JSON :=
  JObj [ ("questionText", JStr (Question.questionText question));
         ("correctAnswer", JStr (Question.correctAnswer question));
         ("userAnswer", js_or_value (answer_of m question) (JStr "")) ].

(** The text holds a backtick somewhere. *)
Fixpoint has_backtick (s : string) : bool :=
  match s with
  | EmptyString => false
  | String c r => (code c =? 96)%N || has_backtick r
  end.

(** The delays of [k] timers in a row that start at [delay] and double. *)
Fixpoint backoff (delay : Z) (k : nat) : list Z :=
  match k with
  | O => []
  | S k' => delay :: backoff (delay * 2) k'
  end.

(** [k] attempts in a row fail, the first from [rt] with the next delay
    being [delay]; a timer is waited for between two of them; the last one
    fails with [e] and leaves [rt']. *)
Inductive fails_in_a_row {W A : Type} (fn : Async W A)
  : nat -> Z -> Runtime W -> JSError -> Runtime W -> Prop :=
| fails_once (delay : Z) (rt : Runtime W) (e : JSError) (rt' : Runtime W) :
    fn rt = (Throw e, rt') ->
    fails_in_a_row fn 1 delay rt e rt'
| fails_again (k : nat) (delay : Z) (rt : Runtime W) (e0 : JSError)
    (rt0 : Runtime W) (e : JSError) (rt' : Runtime W) :
    fn rt = (Throw e0, rt0) ->
    fails_in_a_row fn k (delay * 2) (after_sleep delay rt0) e rt' ->
    fails_in_a_row fn (S k) delay rt e rt'.

(** The attempt after [k] failed ones fulfils with [v] and leaves [rt'];
    a timer is waited for after each failed attempt. *)
Inductive fulfils_after {W A : Type} (fn : Async W A)
  : nat -> Z -> Runtime W -> A -> Runtime W -> Prop :=
| fulfils_now (delay : Z) (rt : Runtime W) (v : A) (rt' : Runtime W) :
    fn rt = (Return v, rt') ->
    fulfils_after fn 0 delay rt v rt'
| fulfils_later (k : nat) (delay : Z) (rt : Runtime W) (e0 : JSError)
    (rt0 : Runtime W) (v : A) (rt' : Runtime W) :
    fn rt = (Throw e0, rt0) ->
    fulfils_after fn k (delay * 2) (after_sleep delay rt0) v rt' ->
    fulfils_after fn (S k) delay rt v rt'.

Section Requests.
Context {sdk : SDK}.

(** The chat completion a service asks for, with a response format or
    without one. *)
Definition chat_request_of (this : AIService) (system user : string)
  (format : option string) : Request :=
  ChatCompletionsCreate
    (mkChat (model this) [("system", system); ("user", user)] temperature format).

(** The content generation a service asks for, on one text. *)
Definition generate_request_of (this : AIService) (text : string) : Request :=
  GenerateContent (mkGenerate (model this) [("user", [text])] temperature 1800).

End Requests.

(** The three recognised selector values. *)
Definition recognised : list string := ["groq"; "openai"; "gemini"].

Definition upper_ascii (c : ascii) : ascii :=
  let n := code c in
  if ((97 <=? n) && (n <=? 122))%N then ascii_of_N (n - 32) else c.

(** [s] is [name] with some of its letters in upper case. *)
Fixpoint case_variant (s name : string) : bool :=
  match s, name with
  | EmptyString, EmptyString => true
  | String a s', String b name' =>
      (Ascii.eqb a b || Ascii.eqb a (upper_ascii b)) && case_variant s' name'
  | _, _ => false
  end.

(** The AI's [maxScore] when the response has one that is a number, and
    the quiz's stored one otherwise: "the AI-returned maxScore when
    present". *)
Definition maxScore_when_present (evaluation : JSON) (quiz : Quiz.t) : float :=
  match get_prop_opt (Some evaluation) "maxScore" with
  | Some (JNum x) => x
  | _ => float_of_Z (Quiz.maxScore quiz)
  end.

(** The AI's [maxScore] when the response has one that is truthy. *)
Definition maxScore_when_truthy (evaluation : JSON) (quiz : Quiz.t) : JSON :=
  js_or_value (get_prop_opt (Some evaluation) "maxScore")
              (JNum (float_of_Z (Quiz.maxScore quiz))).









End Spec.

(** ** Data for the examples *)

Module Samples.
Import JS Text Async AI Routes.

(** Clients that insist on an API key, as the Groq and OpenAI SDKs do;
    the Gemini client takes whatever it is given. *)
Definition keyed_sdk : SDK := {|
  Client := option string;
  new_Groq := fun key =>
    match key with
    | Some k => Return (Some k)
    | None => Throw (Error "The GROQ_API_KEY environment variable is missing or empty")
    end;
  new_OpenAI := fun key =>
    match key with
    | Some k => Return (Some k)
    | None => Throw (Error "The OPENAI_API_KEY environment variable is missing or empty")
    end;
  new_GoogleGenerativeAI := fun key => Return key
|}.

(** A serializer for the examples.  Their backends answer from a script
    without looking at the prompts, so what is written into a prompt plays
    no part in them. *)
Definition blank_serializer : Serializer := {|
  JSON_stringify := fun _ => ""
|}.

(** An environment with the three keys and nothing else. *)
Definition keys_only : Env :=
  mkEnv None (Some "gsk") (Some "sk") None (Some "gk") None.

Definition with_provider (selector : option string) (env : Env) : Env :=
  mkEnv selector (GROQ_API_KEY env) (OPENAI_API_KEY env) (OPENAI_MODEL env)
        (GEMINI_API_KEY env) (GEMINI_MODEL env).

(** A backend that answers the [n]-th request with the [n]-th entry of a
    script, whatever is asked, and fails once the script is used up. *)
Definition scripted (script : list (Exc string)) : Remote :=
  mkRemote []
    (fun n _ =>
       match nth n script (Throw (Error "socket hang up")) with
       | Return text => Return [text]
       | Throw e => Throw e
       end)
    (fun n _ => nth n script (Throw (Error "socket hang up"))).

Definition fresh (w : Remote) : Runtime Remote := mkRuntime w [].

(** An operation that plays a script of outcomes, one per attempt. *)
Definition play : Async (list (Exc string)) string :=
  fun rt =>
    match world rt with
    | outcome :: rest => (outcome, mkRuntime rest (slept rt))
    | [] => (Throw (Error "script exhausted"), rt)
    end.

Definition groq_service : @AIService keyed_sdk :=
  @mkService keyed_sdk "groq" (Some "gsk") "llama-3.1-70b-versatile".

Definition gemini_service : @AIService keyed_sdk :=
  @mkService keyed_sdk "gemini" (Some "gk") "gemini-pro".

(** The capital-of-France question and a quiz holding it. *)
Definition paris_question : Question.t :=
  Question.mk "q1" "quiz1" "What is the capital of France?" "Paris" "easy"
              None 1.

Definition paris_quiz : Quiz.t :=
  Quiz.mk "quiz1" "u1" "5" "Geography" "easy" 1 10 [paris_question].

Definition answer_item (questionId answer : string) : JSON :=
  JObj [("questionId", JStr questionId); ("answer", JStr answer)].

(** A quiz of two questions, kept in the reverse of their numbers. *)
Definition france_question : Question.t :=
  Question.mk "q1" "quiz2" "What is the capital of France?" "Paris" "easy"
              None 1.

Definition germany_question : Question.t :=
  Question.mk "q2" "quiz2" "What is the capital of Germany?" "Berlin" "easy"
              None 2.

Definition capitals_quiz : Quiz.t :=
  Quiz.mk "quiz2" "u1" "5" "Geography" "easy" 2 20
          [germany_question; france_question].

(** An item of an evaluation. *)
Definition judged_item (questionText userAnswer : string) (verdict : JSON)
  : JSON :=
  JObj [ ("questionText", JStr questionText);
         ("userAnswer", JStr userAnswer);
         ("isCorrect", verdict) ].

(** An evaluation of [paris_quiz] whose one item states [verdict]. *)
Definition judged_evaluation (verdict : JSON) : JSON :=
  JObj [ ("score", JNum 10);
         ("maxScore", JNum 10);
         ("evaluations",
          JArr [ judged_item "What is the capital of France?" "Lyon" verdict ]);
         ("improvements", JArr []) ].

(** An evaluation of [capitals_quiz] whose items come in the order
    Germany, France: the one on Germany first, judged correct, the one
    on France second, judged incorrect. *)
Definition swapped_items : list JSON :=
  [ judged_item "What is the capital of Germany?" "Berlin" (JBool true);
    judged_item "What is the capital of France?" "Lyon" (JBool false) ].

Definition swapped_evaluation : JSON :=
  JObj [ ("score", JNum 10);
         ("maxScore", JNum 20);
         ("evaluations", JArr swapped_items);
         ("improvements", JArr []) ].

(** An evaluation of [capitals_quiz] with one item for two questions. *)
Definition short_evaluation : JSON :=
  JObj [ ("score", JNum 10);
         ("maxScore", JNum 20);
         ("evaluations",
          JArr [ judged_item "What is the capital of France?" "Lyon"
                             (JBool false) ]);
         ("improvements", JArr []) ].

(** A database that takes every write, and one that takes the
    submission and refuses to update the quiz. *)
Definition accepting_prisma : Prisma := {|
  quizSubmission_create := fun data => Return data;
  quiz_update := fun _ _ => Return tt
|}.

Definition stale_quiz_prisma : Prisma := {|
  quizSubmission_create := fun data => Return data;
  quiz_update := fun _ _ => Throw (Error "Record to update not found.")
|}.

(** A reply of the generation backend with one question. *)
Definition one_question_reply : string :=
  "{" ++ dq ++ "questions" ++ dq ++ ":[{" ++ dq ++ "questionText" ++ dq ++ ":"
  ++ dq ++ "What is the capital of France?" ++ dq ++ "," ++ dq
  ++ "correctAnswer" ++ dq ++ ":" ++ dq ++ "Paris" ++ dq ++ "}]}".

(** An evaluation whose one item gives no verdict. *)
Definition unjudged_evaluation : JSON :=
  JObj [ ("score", JNum 10);
         ("maxScore", JNum 10);
         ("evaluations",
          JArr [ JObj [ ("questionText", JStr "What is the capital of France?");
                        ("correctAnswer", JStr "Paris");
                        ("explanation", JStr "Paris is the capital of France.") ] ]);
         ("improvements", JArr []) ].

(** The rows stored for a request, from its answers and the evaluation. *)
Definition stored_rows (quiz : Quiz.t) (userId : string) (answers : list JSON)
  (evaluation : JSON) : Exc (list QuestionSubmission) :=
  (m <- answerMap answers ;;
   d <- submission_data quiz userId m evaluation ;;
   Return (questionSubmissions d))%exc.

(** The text [Sure! ```json\n{"a":1}\n```] of the specification. *)
Definition fenced_example : string :=
  "Sure! ```json" ++ nl ++ "{" ++ dq ++ "a" ++ dq ++ ":1}" ++ nl ++ "```".

(** A json fence around text that is not JSON. *)
Definition fenced_garbage : string :=
  "```json" ++ nl ++ "not json" ++ nl ++ "```".

(** An evaluation whose [maxScore] is present and zero. *)
Definition zero_maxScore_evaluation : JSON :=
  JObj [("score", JNum 7); ("maxScore", JNum 0)].

(** An evaluation that carries a percentage of its own. *)
Definition evaluation_with_percentage : JSON :=
  JObj [("score", JNum 7); ("maxScore", JNum 10); ("percentage", JNum 12.5)].




(** Valid JSON in a plain fence, then a json fence around text that is
    not JSON. *)
Definition plain_fence_then_garbage : string :=
  "```" ++ nl ++ "{" ++ dq ++ "a" ++ dq ++ ":1}" ++ nl ++ "``` " ++ fenced_garbage.

End Samples.

(* ================================================================== *)
(** * Part II: properties                                              *)
(* ================================================================== *)

(** ** Lists, lookups and maps *)

Lemma bindE_Return {A B : Type} (m : Exc A) (k : A -> Exc B) (b : B) :
  bindE m k = Return b -> exists a, m = Return a /\ k a = Return b.
Proof.
  destruct m as [a|e]; simpl; intros H; [|discriminate].
  exists a. now split.
Qed.

(** Splits a successful chain of binds into its successful steps. *)
Ltac bind_inv H :=
  repeat match type of H with
         | bindE _ _ = Return _ =>
             let a := fresh "a" in
             let Ha := fresh "Ha" in
             apply bindE_Return in H; destruct H as [a [Ha H]]
         end.

Module JSFacts.
Import JS.

Lemma append_empty_r (s : string) : s ++ "" = s.
Proof. induction s as [|c s IH]; simpl; [reflexivity | now rewrite IH]. Qed.

Lemma find_app_first {A : Type} (p : A -> bool) (l1 l2 : list A) :
  find p (l1 ++ l2) =
  match find p l1 with
  | Some a => Some a
  | None => find p l2
  end.
Proof.
  induction l1 as [|a l1 IH]; simpl.
  - reflexivity.
  - destruct (p a); [reflexivity | exact IH].
Qed.

Lemma find_map_comp {A B : Type} (p : B -> bool) (g : A -> B) (l : list A) :
  find p (map g l) = option_map g (find (fun a => p (g a)) l).
Proof.
  induction l as [|a l IH]; simpl.
  - reflexivity.
  - destruct (p (g a)); [reflexivity | exact IH].
Qed.

Lemma find_pointwise {A : Type} (p q : A -> bool) (l : list A) :
  (forall a, p a = q a) -> find p l = find q l.
Proof.
  intros H. induction l as [|a l IH]; simpl.
  - reflexivity.
  - rewrite H, IH. reflexivity.
Qed.

Lemma mapE_pure {A B : Type} (f : A -> Exc B) (g : A -> B) (l : list A)
  (l' : list B) :
  (forall a b, f a = Return b -> b = g a) ->
  mapE f l = Return l' -> l' = map g l.
Proof.
  intros Hfg. revert l'.
  induction l as [|a l IH]; simpl; intros l' H.
  - now inversion H.
  - destruct (f a) as [b|e] eqn:Ea; simpl in H; [|discriminate].
    destruct (mapE f l) as [bs|e] eqn:El; simpl in H; [|discriminate].
    inversion H; subst. f_equal; [now apply Hfg | now apply IH].
Qed.

Lemma lookup_fold_acc (k : string) (qs : list (string * JSON)) (acc : JSVal) :
  fold_left (fun acc kv => if fst kv =? k then Some (snd kv) else acc) qs acc =
  match lookup_last k qs with
  | Some v => Some v
  | None => acc
  end.
Proof.
  unfold lookup_last. revert acc.
  induction qs as [|[k' v] qs IH]; intros acc; simpl.
  - reflexivity.
  - destruct (k' =? k) eqn:E.
    + rewrite (IH (Some v)).
      destruct (fold_left _ qs None); reflexivity.
    + apply IH.
Qed.

Lemma lookup_last_app (k : string) (ps qs : list (string * JSON)) :
  lookup_last k (ps ++ qs) =
  match lookup_last k qs with
  | Some v => Some v
  | None => lookup_last k ps
  end.
Proof.
  unfold lookup_last at 1. rewrite fold_left_app.
  apply lookup_fold_acc.
Qed.

Lemma lookup_last_other (k k' : string) (v : JSON) (ps : list (string * JSON)) :
  (k' =? k) = false ->
  lookup_last k (ps ++ [(k', v)]) = lookup_last k ps.
Proof.
  intros H. rewrite lookup_last_app. unfold lookup_last at 1. simpl.
  now rewrite H.
Qed.

Lemma js_or_value_not_null (a : JSVal) (b : JSON) :
  b <> JNull -> js_or_value a b <> JNull.
Proof.
  intros Hb. unfold js_or_value. destruct a as [x|]; [|exact Hb].
  destruct (truthy (Some x)) eqn:T; [|exact Hb].
  intros ->. discriminate T.
Qed.

Lemma js_or_value_text (s : string) :
  js_or_value (Some (JStr s)) (JStr "") = JStr s.
Proof.
  unfold js_or_value, truthy. destruct s; reflexivity.
Qed.

Lemma js_coalesce_value_some (x b : JSON) :
  x <> JNull -> js_coalesce_value (Some x) b = x.
Proof. intros H. destruct x; try reflexivity. contradiction. Qed.

Lemma strict_eq_text (v : JSON) (s : string) :
  strict_eq (Some v) (Some (JStr s)) =
  match v with
  | JStr t => String.eqb t s
  | _ => false
  end.
Proof. destruct v; reflexivity. Qed.

Lemma same_value_zero_str (a : JSVal) (s : string) :
  same_value_zero a (Some (JStr s)) = true <-> a = Some (JStr s).
Proof.
  split.
  - destruct a as [[| | | t | |]|]; simpl; try discriminate.
    intros H. apply String.eqb_eq in H. now subst.
  - intros ->. simpl. apply String.eqb_refl.
Qed.

Lemma Map_get_set_str (m : Map) (k v : JSVal) (s : string) :
  Map_get (Map_set m k v) (Some (JStr s)) =
  if same_value_zero k (Some (JStr s)) then v else Map_get m (Some (JStr s)).
Proof.
  induction m as [|[k0 v0] m IH]; simpl.
  - reflexivity.
  - destruct (same_value_zero k0 k) eqn:E0; simpl.
    + destruct (same_value_zero k0 (Some (JStr s))) eqn:E1.
      * apply same_value_zero_str in E1. subst k0.
        assert (k = Some (JStr s)) as ->.
        { destruct k as [[| | | t | |]|]; simpl in E0; try discriminate.
          apply String.eqb_eq in E0. now subst. }
        simpl. now rewrite String.eqb_refl.
      * destruct (same_value_zero k (Some (JStr s))) eqn:E2; [|reflexivity].
        apply same_value_zero_str in E2. subst k.
        destruct k0 as [[| | | t | |]|]; simpl in E0, E1; try discriminate.
        congruence.
    + destruct (same_value_zero k0 (Some (JStr s))) eqn:E1.
      * apply same_value_zero_str in E1. subst k0.
        destruct (same_value_zero k (Some (JStr s))) eqn:E2; [|reflexivity].
        apply same_value_zero_str in E2. subst k. simpl in E0.
        now rewrite String.eqb_refl in E0.
      * exact IH.
Qed.

Lemma Map_get_fold_str (entries : list (JSVal * JSVal)) (m0 : Map) (s : string) :
  Map_get (fold_left (fun m kv => Map_set m (fst kv) (snd kv)) entries m0)
          (Some (JStr s)) =
  match find (fun kv => same_value_zero (fst kv) (Some (JStr s))) (rev entries) with
  | Some kv => snd kv
  | None => Map_get m0 (Some (JStr s))
  end.
Proof.
  revert m0.
  induction entries as [|[k v] entries IH]; intros m0; simpl.
  - reflexivity.
  - rewrite IH, find_app_first.
    destruct (find _ (rev entries)) as [kv|]; [reflexivity|].
    simpl. rewrite Map_get_set_str.
    destruct (same_value_zero k (Some (JStr s))); reflexivity.
Qed.

Lemma Map_get_new_str (entries : list (JSVal * JSVal)) (s : string) :
  Map_get (Map_new entries) (Some (JStr s)) =
  match find (fun kv => same_value_zero (fst kv) (Some (JStr s))) (rev entries) with
  | Some kv => snd kv
  | None => None
  end.
Proof. unfold Map_new. now rewrite Map_get_fold_str. Qed.

End JSFacts.

(** ** Fences *)

Module TextFacts.
Import JS Text Spec JSFacts.

Lemma starts_with_split (p s : string) :
  starts_with p s = true -> s = p ++ drop (String.length p) s.
Proof.
  unfold starts_with. revert s.
  induction p as [|a p IH]; intros s H; simpl.
  - reflexivity.
  - destruct s as [|b s]; simpl in H; [discriminate|].
    destruct (Ascii.ascii_dec a b) as [->|]; [|discriminate].
    simpl. f_equal. now apply IH.
Qed.

Lemma starts_with_app (p r : string) : starts_with p (p ++ r) = true.
Proof.
  unfold starts_with. induction p as [|a p IH]; simpl.
  - now destruct r.
  - destruct (Ascii.ascii_dec a a); [exact IH | contradiction].
Qed.

Lemma drop_app (p r : string) : drop (String.length p) (p ++ r) = r.
Proof. induction p as [|a p IH]; simpl; [now destruct r | exact IH]. Qed.

Lemma before_first_cons (needle : string) (c : ascii) (r : string) :
  before_first needle (String c r) =
  if starts_with needle (String c r) then Some ""
  else match before_first needle r with
       | Some t => Some (String c t)
       | None => None
       end.
Proof. reflexivity. Qed.

Lemma before_first_later (needle pre s a : string) :
  before_first needle s = Some a ->
  exists b, before_first needle (pre ++ s) = Some b.
Proof.
  intros H. induction pre as [|c pre [b IH]].
  - now exists a.
  - change (String c pre ++ s) with (String c (pre ++ s)).
    rewrite before_first_cons.
    destruct (starts_with needle (String c (pre ++ s))).
    + now exists "".
    + rewrite IH. now exists (String c b).
Qed.

Lemma strip_space_suffix (s r : string) :
  strip_space s = Some r -> exists pre, s = pre ++ r.
Proof.
  unfold strip_space.
  destruct s as [|c s]; [discriminate|].
  destruct (_ || _)%bool.
  { intros H. inversion H. now exists (String c ""). }
  destruct s as [|c1 s]; [discriminate|].
  destruct (_ && _)%bool.
  { intros H. inversion H. now exists (String c (String c1 "")). }
  destruct s as [|c2 s]; [discriminate|].
  destruct (_ || _)%bool; [|discriminate].
  intros H. inversion H. now exists (String c (String c1 (String c2 ""))).
Qed.

Lemma greedy_spaces_found (fuel : nat) (s a : string) :
  greedy_spaces fuel s = Some a ->
  exists pre r, s = pre ++ r /\ lazy_until_fence r = Some a.
Proof.
  revert s. induction fuel as [|fuel IH]; intros s; simpl.
  - intros H. now exists "", s.
  - destruct (strip_space s) as [r|] eqn:E.
    + destruct (greedy_spaces fuel r) as [c|] eqn:G.
      * intros H. inversion H; subst c.
        destruct (IH _ G) as [pre [r' [Hr Hl]]].
        destruct (strip_space_suffix _ _ E) as [pre0 Hs].
        exists (pre0 ++ pre), r'. split; [|exact Hl].
        rewrite Hs, Hr. clear. induction pre0; simpl; [reflexivity | now f_equal].
      * intros H. now exists "", s.
    + intros H. now exists "", s.
Qed.

Lemma search_weaker {A B : Type} (f : string -> option A) (g : string -> option B) :
  (forall s a, f s = Some a -> exists b, g s = Some b) ->
  forall s a, search f s = Some a -> exists b, search g s = Some b.
Proof.
  intros Hfg. induction s as [|c s IH]; intros a; simpl.
  - destruct (f "") as [x|] eqn:E; [|discriminate].
    intros _. destruct (Hfg _ _ E) as [b Hb]. rewrite Hb. now exists b.
  - destruct (f (String c s)) as [x|] eqn:E.
    + intros _. destruct (Hfg _ _ E) as [b Hb]. rewrite Hb. now exists b.
    + intros H. destruct (IH _ H) as [b Hb].
      destruct (g (String c s)) as [y|]; [now exists y | now exists b].
Qed.

Lemma json_fence_is_fence (s a : string) :
  json_fence_at s = Some a -> exists b, any_fence_at s = Some b.
Proof.
  unfold json_fence_at.
  destruct (starts_with "```json" s) eqn:E; [|discriminate].
  apply starts_with_split in E. simpl String.length in E.
  generalize dependent (drop 7 s). intros r0 E H. subst s.
  destruct (greedy_spaces_found _ _ _ H) as [pre [r [Hr Hl]]].
  unfold any_fence_at.
  change ("```json" ++ r0) with (fence ++ ("json" ++ r0)).
  rewrite (starts_with_app fence ("json" ++ r0)).
  change (drop 3 (fence ++ ("json" ++ r0))) with ("json" ++ r0).
  unfold lazy_until_fence in *. rewrite Hr.
  change ("json" ++ pre ++ r)
    with (String "j" (String "s" (String "o" (String "n" (pre ++ r))))).
  destruct (before_first_later fence pre r a Hl) as [b Hb].
  rewrite !before_first_cons, Hb. simpl. now eexists.
Qed.

(** A text the json pattern matches is one the plain pattern matches. *)
Lemma match_json_is_match_any (text a : string) :
  match_json_fence text = Some a -> exists b, match_any_fence text = Some b.
Proof. apply search_weaker. exact json_fence_is_fence. Qed.

Lemma search_cons {A : Type} (f : string -> option A) (c : ascii) (r : string) :
  search f (String c r) =
  match f (String c r) with
  | Some a => Some a
  | None => search f r
  end.
Proof. reflexivity. Qed.

Lemma starts_with_other (a : ascii) (p : string) (c : ascii) (r : string) :
  a <> c -> starts_with (String a p) (String c r) = false.
Proof.
  intros H. unfold starts_with. cbn [String.prefix].
  destruct (Ascii.ascii_dec a c); [contradiction | reflexivity].
Qed.

Lemma not_backtick (c : ascii) : (code c =? 96)%N = false -> "`"%char <> c.
Proof. intros H E. subst c. discriminate H. Qed.

Lemma no_backtick_no_fence (text : string) :
  has_backtick text = false -> match_any_fence text = None.
Proof.
  unfold match_any_fence.
  induction text as [|c text IH]; intros H.
  - reflexivity.
  - simpl in H. apply orb_false_iff in H. destruct H as [Hc Ht].
    rewrite search_cons. unfold any_fence_at at 1, fence.
    rewrite (starts_with_other _ _ _ _ (not_backtick _ Hc)).
    now apply IH.
Qed.

End TextFacts.

(** ** White space *)

Module SpaceFacts.
Import JS Text Spec JSFacts TextFacts.

Lemma strip_space_shorter (s r : string) :
  strip_space s = Some r -> String.length r < String.length s.
Proof.
  unfold strip_space.
  destruct s as [|c s]; [discriminate|].
  destruct (_ || _)%bool.
  { intros H. inversion H. simpl. lia. }
  destruct s as [|c1 s]; [discriminate|].
  destruct (_ && _)%bool.
  { intros H. inversion H. simpl. lia. }
  destruct s as [|c2 s]; [discriminate|].
  destruct (_ || _)%bool; [|discriminate].
  intros H. inversion H. simpl. lia.
Qed.

Lemma strip_space_app (s r z : string) :
  strip_space s = Some r -> strip_space (s ++ z) = Some (r ++ z).
Proof.
  unfold strip_space.
  destruct s as [|c s]; [discriminate|]. simpl.
  destruct (_ || _)%bool.
  { intros H. inversion H. reflexivity. }
  destruct s as [|c1 s]; [discriminate|]. simpl.
  destruct (_ && _)%bool.
  { intros H. inversion H. reflexivity. }
  destruct s as [|c2 s]; [discriminate|]. simpl.
  destruct (_ || _)%bool; [|discriminate].
  intros H. inversion H. reflexivity.
Qed.

Lemma trim_start_fuel_enough (f1 f2 : nat) (s : string) :
  String.length s <= f1 -> String.length s <= f2 ->
  trim_start_fuel f1 s = trim_start_fuel f2 s.
Proof.
  revert f2 s. induction f1 as [|f1 IH]; intros f2 s H1 H2.
  - destruct s; [|simpl in H1; lia]. destruct f2; reflexivity.
  - destruct f2 as [|f2].
    + destruct s; [reflexivity | simpl in H2; lia].
    + simpl. destruct (strip_space s) as [r|] eqn:E; [|reflexivity].
      apply strip_space_shorter in E. apply IH; lia.
Qed.

Lemma trimStart_step (s : string) :
  trimStart s =
  match strip_space s with
  | Some r => trimStart r
  | None => s
  end.
Proof.
  unfold trimStart. destruct s as [|c s]; [reflexivity|].
  cbn [String.length trim_start_fuel].
  destruct (strip_space (String c s)) as [r|] eqn:E; [|reflexivity].
  apply strip_space_shorter in E. simpl in E.
  apply trim_start_fuel_enough; lia.
Qed.

(** The text left by [trimStart] does not begin with white space. *)
Lemma trimStart_stripped (s : string) : strip_space (trimStart s) = None.
Proof.
  remember (String.length s) as n eqn:Hn.
  revert s Hn. induction n as [n IH] using lt_wf_ind. intros s Hn.
  rewrite trimStart_step.
  destruct (strip_space s) as [r|] eqn:E; [|exact E].
  apply (IH (String.length r)); [|reflexivity].
  apply strip_space_shorter in E. lia.
Qed.

(** What [strip_space] removes is one white-space character. *)
Lemma strip_space_char (s r : string) :
  strip_space s = Some r ->
  exists w, s = w ++ r /\ forall z, strip_space (w ++ z) = Some z.
Proof.
  unfold strip_space at 1. cbv zeta.
  destruct s as [|c s]; [discriminate|].
  match goal with |- (if ?b then _ else _) = _ -> _ => destruct b eqn:C1 end.
  { intros H. inversion H. exists (String c ""). split; [reflexivity|].
    intros z. unfold strip_space. cbv zeta.
    change (String c "" ++ z) with (String c z). cbv iota beta.
    now rewrite C1. }
  destruct s as [|c1 s]; [discriminate|].
  match goal with |- (if ?b then _ else _) = _ -> _ => destruct b eqn:C2 end.
  { intros H. inversion H. exists (String c (String c1 "")).
    split; [reflexivity|].
    intros z. unfold strip_space. cbv zeta.
    change (String c (String c1 "") ++ z) with (String c (String c1 z)).
    cbv iota beta. now rewrite C1, C2. }
  destruct s as [|c2 s]; [discriminate|].
  match goal with |- (if ?b then _ else _) = _ -> _ => destruct b eqn:C3 end;
    [|discriminate].
  intros H. inversion H. exists (String c (String c1 (String c2 ""))).
  split; [reflexivity|].
  intros z. unfold strip_space. cbv zeta.
  change (String c (String c1 (String c2 "")) ++ z)
    with (String c (String c1 (String c2 z))).
  cbv iota beta. now rewrite C1, C2, C3.
Qed.

Lemma append_assoc (a b c : string) : (a ++ b) ++ c = a ++ (b ++ c).
Proof. induction a as [|x a IH]; simpl; [reflexivity | now rewrite IH]. Qed.

(** What [trimStart] removes is white space and nothing else. *)
Lemma trimStart_split (s : string) :
  exists pre, s = pre ++ trimStart s /\ all_space pre = true.
Proof.
  remember (String.length s) as n eqn:Hn.
  revert s Hn. induction n as [n IH] using lt_wf_ind. intros s Hn.
  rewrite trimStart_step.
  destruct (strip_space s) as [r|] eqn:E.
  - destruct (IH (String.length r)) with (s := r) as [pre [Hr Hp]];
      [apply strip_space_shorter in E; lia | reflexivity |].
    destruct (strip_space_char _ _ E) as [w [Hw Hz]].
    exists (w ++ pre). split.
    + rewrite Hw at 1. rewrite Hr at 1. now rewrite append_assoc.
    + unfold all_space. rewrite trimStart_step, Hz. exact Hp.
  - exists "". split; reflexivity.
Qed.

Lemma all_space_empty (s : string) :
  all_space s = true -> strip_space s = None -> s = "".
Proof.
  unfold all_space. rewrite trimStart_step. intros H E. rewrite E in H.
  destruct s; [reflexivity | discriminate].
Qed.

Lemma all_space_app (x y : string) :
  all_space x = true -> all_space y = true -> all_space (x ++ y) = true.
Proof.
  remember (String.length x) as n eqn:Hn.
  revert x Hn. induction n as [n IH] using lt_wf_ind. intros x Hn Hx Hy.
  destruct (strip_space x) as [r|] eqn:E.
  - unfold all_space. rewrite trimStart_step, (strip_space_app _ _ y E).
    apply (IH (String.length r)); [|reflexivity| |exact Hy].
    + apply strip_space_shorter in E. lia.
    + unfold all_space in Hx. now rewrite trimStart_step, E in Hx.
  - now rewrite (all_space_empty x Hx E).
Qed.

(** What [trimEnd] removes is white space and nothing else. *)
Lemma trimEnd_split (s : string) :
  exists post, s = trimEnd s ++ post /\ all_space post = true.
Proof.
  induction s as [|c s [post [Hs Hp]]].
  - exists "". split; reflexivity.
  - cbn [trimEnd]. destruct (all_space (String c s)) eqn:E.
    + exists (String c s). split; [reflexivity | exact E].
    + exists post. split; [|exact Hp].
      change (String c (trimEnd s) ++ post) with (String c (trimEnd s ++ post)).
      now rewrite <- Hs.
Qed.

(** [trimEnd] leaves no more than what precedes trailing white space. *)
Lemma trimEnd_within (a u : string) :
  all_space u = true -> exists a', a = trimEnd (a ++ u) ++ a'.
Proof.
  intros Hu. induction a as [|c a [a' IH]].
  - exists "". change ("" ++ u) with u.
    destruct u as [|c u]; [reflexivity|].
    cbn [trimEnd]. now rewrite Hu.
  - change (String c a ++ u) with (String c (a ++ u)). cbn [trimEnd].
    destruct (all_space (String c (a ++ u))).
    + now exists (String c a).
    + exists a'. change (String c (trimEnd (a ++ u)) ++ a')
        with (String c (trimEnd (a ++ u) ++ a')).
      now rewrite <- IH.
Qed.

Lemma length_app (a b : string) :
  String.length (a ++ b) = String.length a + String.length b.
Proof. induction a as [|c a IH]; simpl; [reflexivity | now rewrite IH]. Qed.

(** The result of [trim] neither begins nor ends with white space, and
    what was removed around it is white space. *)
Lemma trim_spec (s : string) :
  (exists pre post,
      s = pre ++ trim s ++ post /\ all_space pre = true /\ all_space post = true)
  /\ strip_space (trim s) = None
  /\ (forall a b, trim s = a ++ b -> all_space b = true -> b = "").
Proof.
  unfold trim.
  destruct (trimStart_split s) as [pre [Hpre Hp]].
  destruct (trimEnd_split (trimStart s)) as [post [Hpost Hq]].
  split; [|split].
  - exists pre, post. repeat split; try assumption.
    rewrite <- Hpost. exact Hpre.
  - destruct (strip_space (trimEnd (trimStart s))) as [r|] eqn:E; [|reflexivity].
    apply (strip_space_app _ _ post) in E. rewrite <- Hpost in E.
    now rewrite trimStart_stripped in E.
  - intros a b Hab Hb.
    assert (Hall : all_space (b ++ post) = true) by now apply all_space_app.
    destruct (trimEnd_within a (b ++ post) Hall) as [a' Ha'].
    rewrite <- append_assoc, <- Hab, <- Hpost in Ha'.
    rewrite Hab in Ha'. apply (f_equal String.length) in Ha'.
    rewrite !length_app in Ha'.
    destruct b; [reflexivity | simpl in Ha'; lia].
Qed.

Lemma has_backtick_app (a b : string) :
  has_backtick (a ++ b) = has_backtick a || has_backtick b.
Proof.
  induction a as [|c a IH]; simpl; [reflexivity|].
  now rewrite IH, orb_assoc.
Qed.

Lemma search_skip {A : Type} (f : string -> option A) (prose rest : string) :
  (forall c r, (code c =? 96)%N = false -> f (String c r) = None) ->
  has_backtick prose = false ->
  search f (prose ++ rest) = search f rest.
Proof.
  intros Hf. induction prose as [|c prose IH]; intros H.
  - reflexivity.
  - simpl in H. apply orb_false_iff in H. destruct H as [Hc Hp].
    change (String c prose ++ rest) with (String c (prose ++ rest)).
    rewrite search_cons, (Hf _ _ Hc). now apply IH.
Qed.

Lemma json_fence_at_other (c : ascii) (r : string) :
  (code c =? 96)%N = false -> json_fence_at (String c r) = None.
Proof.
  intros H. unfold json_fence_at.
  now rewrite (starts_with_other _ _ _ _ (not_backtick _ H)).
Qed.

Lemma lazy_until_fence_clean (p rest : string) :
  has_backtick p = false ->
  lazy_until_fence (p ++ fence ++ rest) = Some p.
Proof.
  unfold lazy_until_fence. induction p as [|c p IH]; intros H.
  - change ("" ++ fence ++ rest) with (String "`" (String "`" (String "`" rest))).
    rewrite before_first_cons.
    change (String "`" (String "`" (String "`" rest))) with (fence ++ rest).
    now rewrite (starts_with_app fence rest).
  - simpl in H. apply orb_false_iff in H. destruct H as [Hc Hp].
    change (String c p ++ fence ++ rest) with (String c (p ++ fence ++ rest)).
    rewrite before_first_cons. unfold fence at 1.
    rewrite (starts_with_other _ _ _ _ (not_backtick _ Hc)).
    now rewrite (IH Hp).
Qed.

(** Text that does not begin with white space still does not when a
    fence follows it. *)
Lemma strip_space_before_fence (p rest : string) :
  strip_space p = None -> strip_space (p ++ fence ++ rest) = None.
Proof.
  destruct p as [|c [|c1 [|c2 p]]].
  - intros _. reflexivity.
  - unfold strip_space. cbv zeta.
    change (String c "" ++ fence ++ rest)
      with (String c (String "`" (String "`" (String "`" rest)))).
    cbv iota beta. generalize (code c). intros n.
    change (code "`") with 96%N.
    destruct (_ || _)%bool; [discriminate|]. intros _.
    destruct (n =? 194)%N, (n =? 225)%N, (n =? 226)%N, (n =? 227)%N,
      (n =? 239)%N; reflexivity.
  - unfold strip_space. cbv zeta.
    change (String c (String c1 "") ++ fence ++ rest)
      with (String c (String c1 (String "`" (String "`" (String "`" rest))))).
    cbv iota beta. generalize (code c) (code c1). intros n n1.
    change (code "`") with 96%N.
    match goal with |- (if ?b then _ else _) = _ -> _ => destruct b end;
      [discriminate|].
    match goal with |- (if ?b then _ else _) = _ -> _ => destruct b end;
      [discriminate|].
    intros _.
    destruct (n =? 225)%N, (n =? 226)%N, (n =? 227)%N, (n =? 239)%N,
      (n1 =? 154)%N, (n1 =? 128)%N, (n1 =? 129)%N, (n1 =? 187)%N; reflexivity.
  - unfold strip_space. cbv zeta.
    change (String c (String c1 (String c2 p)) ++ fence ++ rest)
      with (String c (String c1 (String c2 (p ++ fence ++ rest)))).
    cbv iota beta.
    match goal with |- (if ?b then _ else _) = _ -> _ => destruct b end;
      [discriminate|].
    match goal with |- (if ?b then _ else _) = _ -> _ => destruct b end;
      [discriminate|].
    match goal with |- (if ?b then _ else _) = _ -> _ => destruct b end;
      [discriminate | reflexivity].
Qed.

(** The greedy white space and the lazy group of the json pattern, on a
    payload without backtick that a fence closes. *)
Lemma greedy_spaces_payload (fuel : nat) (p rest : string) :
  has_backtick p = false ->
  String.length p <= fuel ->
  greedy_spaces fuel (p ++ fence ++ rest) = Some (trimStart p).
Proof.
  revert p. induction fuel as [|fuel IH]; intros p Hb Hl.
  - destruct p; [|simpl in Hl; lia].
    exact (lazy_until_fence_clean "" rest eq_refl).
  - cbn [greedy_spaces]. rewrite trimStart_step.
    destruct (strip_space p) as [r|] eqn:E.
    + rewrite (strip_space_app _ _ (fence ++ rest) E).
      destruct (strip_space_char _ _ E) as [w [Hw _]].
      assert (Hr : has_backtick r = false).
      { rewrite Hw, has_backtick_app in Hb. now apply orb_false_iff in Hb. }
      apply strip_space_shorter in E.
      rewrite (IH r Hr) by lia. reflexivity.
    + rewrite (strip_space_before_fence _ rest E).
      now apply lazy_until_fence_clean.
Qed.

Lemma match_json_fence_payload (prose payload rest : string) :
  has_backtick prose = false ->
  has_backtick payload = false ->
  match_json_fence (prose ++ "```json" ++ payload ++ fence ++ rest)
  = Some (trimStart payload).
Proof.
  intros Hp Hb. unfold match_json_fence.
  rewrite (search_skip _ _ _ json_fence_at_other Hp).
  change ("```json" ++ payload ++ fence ++ rest)
    with (String "`" ("``json" ++ payload ++ fence ++ rest)).
  rewrite search_cons.
  change (String "`" ("``json" ++ payload ++ fence ++ rest))
    with ("```json" ++ (payload ++ fence ++ rest)).
  unfold json_fence_at at 1.
  rewrite (starts_with_app "```json" (payload ++ fence ++ rest)).
  change 7 with (String.length "```json").
  rewrite (drop_app "```json" (payload ++ fence ++ rest)).
  rewrite greedy_spaces_payload; [reflexivity | exact Hb |].
  rewrite length_app. lia.
Qed.

End SpaceFacts.

(** ** Reconciliation of the AI's evaluation with the submitted answers *)

Module Reconcile.
Import JS Routes Spec Samples JSFacts.

Lemma mapiE_nth {A B : Type} (f : nat -> A -> Exc B) (l : list A) :
  forall (i0 : nat) (rows : list B),
    mapiE f i0 l = Return rows ->
    List.length rows = List.length l /\
    forall i a, nth_error l i = Some a ->
      exists row, nth_error rows i = Some row /\ f (i0 + i) a = Return row.
Proof.
  induction l as [|a l IH]; simpl; intros i0 rows H.
  - inversion H; subst. split; [reflexivity|].
    intros [|i] x Hx; discriminate.
  - destruct (f i0 a) as [b|e] eqn:Ea; simpl in H; [|discriminate].
    destruct (mapiE f (S i0) l) as [bs|e] eqn:El; simpl in H; [|discriminate].
    inversion H; subst. destruct (IH _ _ El) as [Hlen Hnth].
    split; [simpl; now rewrite Hlen|].
    intros [|i] x Hx; simpl in Hx.
    + inversion Hx; subst. exists b. rewrite Nat.add_0_r. now split.
    + destruct (Hnth i x Hx) as [row [H1 H2]].
      exists row. split; [exact H1|].
      now rewrite Nat.add_succ_r.
Qed.

(** What the callback reads of an item, in the vocabulary of the
    specification. *)
Lemma item_userAnswer (item : JSVal) :
  get_prop (Some (js_or_value item (JObj []))) "userAnswer"
  = Return (echoed_answer item).
Proof.
  destruct item as [[| b | x | s | l | props]|]; try reflexivity.
  - destruct b; reflexivity.
  - unfold js_or_value. destruct (truthy (Some (JNum x))); reflexivity.
  - unfold js_or_value. destruct (truthy (Some (JStr s))); reflexivity.
Qed.

Lemma item_isCorrect (item : JSVal) :
  get_prop (Some (js_or_value item (JObj []))) "isCorrect"
  = Return (match item with
            | Some (JObj props) => lookup_last "isCorrect" props
            | _ => None
            end).
Proof.
  destruct item as [[| b | x | s | l | props]|]; try reflexivity.
  - destruct b; reflexivity.
  - unfold js_or_value. destruct (truthy (Some (JNum x))); reflexivity.
  - unfold js_or_value. destruct (truthy (Some (JStr s))); reflexivity.
Qed.

(** The callback never throws, and this is the row it returns. *)
Lemma question_submission_row (m : Map) (items : JSON) (i : nat)
  (question : Question.t) :
  question_submission m items i question =
  Return (mkQuestionSubmission (Question.id question)
            (stored_answer m (get_index items i) question)
            (Some (JBool
               match explicit_isCorrect (get_index items i) with
               | Some b => b
               | None => same_text (stored_answer m (get_index items i) question)
                                   (Question.correctAnswer question)
               end))).
Proof.
  unfold question_submission, stored_answer.
  generalize (get_index items i). intros item.
  rewrite item_isCorrect.
  destruct (nullish (answer_of m question)) eqn:Hn.
  - rewrite item_userAnswer. simpl bindE.
    generalize (js_coalesce_value (echoed_answer item) (JStr "")). intros ua.
    unfold explicit_isCorrect, same_text.
    destruct item as [[| b | x | s | l | props]|]; try reflexivity.
    destruct (lookup_last "isCorrect" props) as [[| b | x | s | l | ps]|];
      reflexivity.
  - simpl bindE.
    generalize (js_coalesce_value (answer_of m question) (JStr "")). intros ua.
    unfold explicit_isCorrect, same_text.
    destruct item as [[| b | x | s | l | props]|]; try reflexivity.
    destruct (lookup_last "isCorrect" props) as [[| b | x | s | l | ps]|];
      reflexivity.
Qed.

(** The items the handler indexes are the AI's items. *)
Lemma evaluationItems_index (evaluation : JSON) (i : nat) :
  get_index (js_or_value (get_prop_opt (Some evaluation) "evaluations") (JArr [])) i
  = ai_item evaluation i.
Proof.
  unfold ai_item, js_or_value.
  destruct (get_prop_opt (Some evaluation) "evaluations") as [v|].
  - destruct (truthy (Some v)) eqn:T; [reflexivity|].
    destruct v as [| b | x | s | l | props]; simpl in T; try discriminate;
      try (now destruct i).
    destruct s; [now destruct i | discriminate].
  - now destruct i.
Qed.

(** The rows of a submission, one per ordered question, at its index. *)
Lemma submission_rows (quiz : Quiz.t) (userId : string) (m : Map)
  (evaluation : JSON) (d : SubmissionData) :
  submission_data quiz userId m evaluation = Return d ->
  List.length (questionSubmissions d) = List.length (orderedQuestions quiz) /\
  forall i question,
    nth_error (orderedQuestions quiz) i = Some question ->
    exists row,
      nth_error (questionSubmissions d) i = Some row /\
      question_submission m
        (js_or_value (get_prop_opt (Some evaluation) "evaluations") (JArr []))
        i question = Return row.
Proof.
  unfold submission_data. intros H. bind_inv H.
  inversion H; subst; simpl.
  match goal with
  | Hrows : mapiE _ 0 _ = Return _ |- _ =>
      destruct (mapiE_nth _ _ _ _ Hrows) as [Hlen Hnth]
  end.
  split; [exact Hlen|].
  intros i question Hq. destruct (Hnth i question Hq) as [row [H1 H2]].
  exists row. now split.
Qed.

(** The items the handler indexes, when the response holds an array. *)
Lemma evaluationItems_array (evaluation : JSON) (items : list JSON) :
  evaluations_array evaluation = Some items ->
  js_or_value (get_prop_opt (Some evaluation) "evaluations") (JArr [])
  = JArr items.
Proof.
  destruct evaluation as [| b | x | s | l | props]; try discriminate.
  unfold evaluations_array, get_prop_opt, get_prop.
  destruct (lookup_last "evaluations" props) as [[| b | x | s | l | ps]|];
    try discriminate.
  intros H. inversion H. reflexivity.
Qed.

(** The row of the question at index [i], from the [i]-th element of
    the array of items. *)
Lemma array_row (quiz : Quiz.t) (userId : string) (m : Map)
  (evaluation : JSON) (items : list JSON) (d : SubmissionData) (i : nat)
  (question : Question.t) :
  evaluations_array evaluation = Some items ->
  submission_data quiz userId m evaluation = Return d ->
  nth_error (orderedQuestions quiz) i = Some question ->
  nth_error (questionSubmissions d) i
  = Some (mkQuestionSubmission (Question.id question)
            (stored_answer m (nth_error items i) question)
            (Some (JBool
               match explicit_isCorrect (nth_error items i) with
               | Some b => b
               | None => same_text (stored_answer m (nth_error items i) question)
                                   (Question.correctAnswer question)
               end))).
Proof.
  intros Hitems Hd Hq.
  destruct (submission_rows _ _ _ _ _ Hd) as [_ Hrows].
  destruct (Hrows i question Hq) as [row [Hrow Hsub]].
  rewrite question_submission_row, (evaluationItems_array _ _ Hitems) in Hsub.
  cbn [get_index] in Hsub. inversion Hsub; subst row. exact Hrow.
Qed.

Lemma answer_entry_pure (item : JSON) (e : JSVal * JSVal) :
  answer_entry item = Return e -> e = entry_of item.
Proof.
  unfold answer_entry. intros H. bind_inv H.
  inversion H; subst e. unfold entry_of, get_prop_opt.
  now rewrite Ha, Ha0.
Qed.

Lemma names_question_key (id : string) (item : JSON) :
  same_value_zero (fst (entry_of item)) (Some (JStr id)) = names_question id item.
Proof.
  destruct item as [| b | x | s | l | props]; try reflexivity.
  unfold entry_of, get_prop_opt, names_question. simpl.
  destruct (lookup_last "questionId" props) as [[| b | x | s | l | ps]|];
    reflexivity.
Qed.

(** [answerMap.get(question.id)] is the answer of the last item naming
    the question. *)
Lemma answer_of_submitted (answers : list JSON) (m : Map) (question : Question.t) :
  answerMap answers = Return m ->
  answer_of m question =
  match submitted answers (Question.id question) with
  | Some item => Some (js_or_value (submitted_answer item) (JStr ""))
  | None => None
  end.
Proof.
  unfold answerMap. intros H. bind_inv H. rename a into entries, Ha into He.
  inversion H; subst m; clear H.
  apply (mapE_pure _ entry_of) in He; [|exact answer_entry_pure].
  subst entries. unfold answer_of, submitted.
  rewrite Map_get_new_str, <- map_rev, find_map_comp.
  rewrite (find_pointwise _ (names_question (Question.id question)))
    by (intros a; apply names_question_key).
  destruct (find _ (rev answers)) as [item|] eqn:Hf; simpl; [|reflexivity].
  apply find_some in Hf. destruct Hf as [_ Hn].
  destruct item as [| b | x | s | l | props]; try discriminate Hn.
  reflexivity.
Qed.

Lemma echoed_with_questionText (text item : JSON) :
  echoed_answer (Some (with_questionText text item)) = echoed_answer (Some item).
Proof.
  destruct item; try reflexivity. simpl.
  now apply lookup_last_other.
Qed.

Lemma explicit_with_questionText (text item : JSON) :
  explicit_isCorrect (Some (with_questionText text item))
  = explicit_isCorrect (Some item).
Proof.
  destruct item; try reflexivity. simpl.
  now rewrite lookup_last_other.
Qed.

Lemma retexted_nth (texts items : list JSON) (i : nat) :
  nth_error (retexted texts items) i = nth_error items i \/
  exists text item,
    nth_error items i = Some item /\
    nth_error (retexted texts items) i = Some (with_questionText text item).
Proof.
  revert texts i.
  induction items as [|item items IH]; intros texts i.
  - left. reflexivity.
  - destruct texts as [|text texts]; [left; reflexivity|].
    destruct i as [|i]; simpl.
    + right. exists text, item. now split.
    + apply IH.
Qed.

(** The row of a question when the response holds nothing truthy under
    [evaluations]. *)
Lemma no_items_row (quiz : Quiz.t) (userId : string) (m : Map)
  (evaluation : JSON) (d : SubmissionData) (i : nat) (question : Question.t) :
  truthy (get_prop_opt (Some evaluation) "evaluations") = false ->
  submission_data quiz userId m evaluation = Return d ->
  nth_error (orderedQuestions quiz) i = Some question ->
  nth_error (questionSubmissions d) i
  = Some (mkQuestionSubmission (Question.id question)
            (stored_answer m None question)
            (Some (JBool (same_text (stored_answer m None question)
                                    (Question.correctAnswer question))))).
Proof.
  intros Hf Hd Hq.
  destruct (submission_rows _ _ _ _ _ Hd) as [_ Hrows].
  destruct (Hrows i question Hq) as [row [Hrow Hsub]].
  assert (Hitems : js_or_value (get_prop_opt (Some evaluation) "evaluations")
                               (JArr []) = JArr []).
  { unfold js_or_value.
    destruct (get_prop_opt (Some evaluation) "evaluations"); [|reflexivity].
    now rewrite Hf. }
  rewrite question_submission_row, Hitems in Hsub.
  cbn [get_index] in Hsub.
  assert (Hnone : nth_error (@nil JSON) i = None) by now destruct i.
  rewrite Hnone in Hsub. cbn [explicit_isCorrect] in Hsub.
  inversion Hsub; subst row. exact Hrow.
Qed.

(** The stored answer, from the request and the echo. *)
Lemma stored_answer_cases (answers : list JSON) (m : Map) (item : JSVal)
  (question : Question.t) :
  answerMap answers = Return m ->
  stored_answer m item question
  = match submitted answers (Question.id question) with
    | Some it => js_or_value (submitted_answer it) (JStr "")
    | None => js_coalesce_value (echoed_answer item) (JStr "")
    end.
Proof.
  intros Hm. unfold stored_answer. rewrite (answer_of_submitted _ _ _ Hm).
  destruct (submitted answers (Question.id question)) as [it|];
    [|reflexivity].
  assert (Hnn : js_or_value (submitted_answer it) (JStr "") <> JNull)
    by (apply js_or_value_not_null; discriminate).
  destruct (js_or_value (submitted_answer it) (JStr "")) eqn:E;
    try reflexivity.
  contradiction.
Qed.

End Reconcile.
Module Reconciliation.
Import JS Routes Spec Samples JSFacts Reconcile.

(** C1.  For the question at position [i] of an evaluated submission, the
    stored correctness is the AI's [isCorrect] when the [i]-th element of
    the AI's array of evaluations is an item that states a boolean there,
    and in every other case (no [isCorrect], one that is not a boolean, no
    [i]-th element, no array at all) the exact, case-sensitive equality
    of the stored answer with the question's correct answer.  For the
    question with
    correct answer "Paris" and an item without verdict, the answer "Paris"
    is stored as correct and "paris" as incorrect; a verdict of the item
    is stored against that equality, [true] for "paris" and [false] for
    "Paris"; a verdict that is the text "false" is no verdict. *)
Theorem stored_correctness :
  (forall quiz userId m evaluation items d i question,
      evaluations_array evaluation = Some items ->
      submission_data quiz userId m evaluation = Return d ->
      nth_error (orderedQuestions quiz) i = Some question ->
      exists row,
        nth_error (questionSubmissions d) i = Some row /\
        isCorrect row =
        Some (JBool
                match explicit_isCorrect (nth_error items i) with
                | Some b => b
                | None => same_text (userAnswer row)
                                    (Question.correctAnswer question)
                end) /\
        (forall props b,
            nth_error items i = Some (JObj props) ->
            lookup_last "isCorrect" props = Some (JBool b) ->
            isCorrect row = Some (JBool b)) /\
        (forall props,
            nth_error items i = Some (JObj props) ->
            (forall b, lookup_last "isCorrect" props <> Some (JBool b)) ->
            isCorrect row =
            Some (JBool (same_text (userAnswer row)
                                   (Question.correctAnswer question)))) /\
        (nth_error items i = None ->
         isCorrect row =
         Some (JBool (same_text (userAnswer row)
                                (Question.correctAnswer question)))))
  /\ (forall quiz userId m evaluation d i question,
         truthy (get_prop_opt (Some evaluation) "evaluations") = false ->
         submission_data quiz userId m evaluation = Return d ->
         nth_error (orderedQuestions quiz) i = Some question ->
         exists row,
           nth_error (questionSubmissions d) i = Some row /\
           isCorrect row =
           Some (JBool (same_text (userAnswer row)
                                  (Question.correctAnswer question))))
  /\ (forall quiz userId m evaluation d i question,
         submission_data quiz userId m evaluation = Return d ->
         nth_error (orderedQuestions quiz) i = Some question ->
         exists row,
           nth_error (questionSubmissions d) i = Some row /\
           isCorrect row =
           Some (JBool
                   match explicit_isCorrect (ai_item evaluation i) with
                   | Some b => b
                   | None => same_text (userAnswer row)
                                       (Question.correctAnswer question)
                   end))
  /\ stored_rows paris_quiz "u1" [answer_item "q1" "Paris"] unjudged_evaluation
     = Return [mkQuestionSubmission "q1" (JStr "Paris") (Some (JBool true))]
  /\ stored_rows paris_quiz "u1" [answer_item "q1" "paris"] unjudged_evaluation
     = Return [mkQuestionSubmission "q1" (JStr "paris") (Some (JBool false))]
  /\ stored_rows paris_quiz "u1" [answer_item "q1" "paris"]
                 (judged_evaluation (JBool true))
     = Return [mkQuestionSubmission "q1" (JStr "paris") (Some (JBool true))]
  /\ stored_rows paris_quiz "u1" [answer_item "q1" "Paris"]
                 (judged_evaluation (JBool false))
     = Return [mkQuestionSubmission "q1" (JStr "Paris") (Some (JBool false))]
  /\ stored_rows paris_quiz "u1" [answer_item "q1" "Paris"]
                 (judged_evaluation (JStr "false"))
     = Return [mkQuestionSubmission "q1" (JStr "Paris") (Some (JBool true))].
Proof.
  split; [|split; [|split; [|repeat split]]].
  - intros quiz userId m evaluation items d i question Hitems Hd Hq.
    eexists. split; [exact (array_row _ _ _ _ _ _ _ _ Hitems Hd Hq)|].
    cbn [isCorrect userAnswer]. split; [reflexivity|].
    split; [|split].
    + intros props b Hi Hb. rewrite Hi. cbn [explicit_isCorrect].
      now rewrite Hb.
    + intros props Hi Hnb. rewrite Hi. cbn [explicit_isCorrect].
      destruct (lookup_last "isCorrect" props) as [[| b | x | s | l | ps]|];
        try reflexivity.
      exfalso. now apply (Hnb b).
    + intros Hi. now rewrite Hi.
  - intros quiz userId m evaluation d i question Hf Hd Hq.
    eexists. split; [exact (no_items_row _ _ _ _ _ _ _ Hf Hd Hq)|].
    reflexivity.
  - intros quiz userId m evaluation d i question Hd Hq.
    destruct (submission_rows _ _ _ _ _ Hd) as [_ Hrows].
    destruct (Hrows i question Hq) as [row [Hrow Hsub]].
    exists row. split; [exact Hrow|].
    rewrite question_submission_row, evaluationItems_index in Hsub.
    inversion Hsub; subst row; simpl. reflexivity.
Qed.

Lemma stored_correctness_witness :
  exists d row,
    submission_data paris_quiz "u1" [(Some (JStr "q1"), Some (JStr "paris"))]
                    (judged_evaluation (JBool true)) = Return d /\
    nth_error (questionSubmissions d) 0 = Some row /\
    userAnswer row = JStr "paris" /\
    isCorrect row = Some (JBool true).
Proof.
  destruct (proj1 stored_correctness paris_quiz "u1"
              [(Some (JStr "q1"), Some (JStr "paris"))]
              (judged_evaluation (JBool true)) _ _ 0 paris_question
              eq_refl eq_refl eq_refl)
    as [row [Hrow [_ [Hb _]]]].
  eexists. exists row. split; [reflexivity|]. split; [exact Hrow|]. split.
  - vm_compute in Hrow. inversion Hrow. reflexivity.
  - exact (Hb _ true eq_refl eq_refl).
Defined.

(** C2.  The stored answer of a question is the answer of the last item of
    the request naming the question's id, and the answer text echoed by
    the [i]-th element of the AI's array of evaluations, [i] being the
    index of the question, only when no item of the request names the
    question; verdict and echo of a question are those of the element at
    its index, whatever question text the elements echo; and a question
    whose index lies beyond the array, or whose evaluation holds no
    array, is judged as by an empty item, by the equality of its stored
    answer with its correct answer.  For a
    quiz of two questions whose evaluation lists the second question
    first, the first question is stored with the echo and the verdict of
    the first element. *)
Theorem stored_answer_alignment :
  (forall answers m quiz userId evaluation items d i question,
      answerMap answers = Return m ->
      evaluations_array evaluation = Some items ->
      submission_data quiz userId m evaluation = Return d ->
      nth_error (orderedQuestions quiz) i = Some question ->
      exists row,
        nth_error (questionSubmissions d) i = Some row /\
        questionId row = Question.id question /\
        userAnswer row =
        match submitted answers (Question.id question) with
        | Some item => js_or_value (submitted_answer item) (JStr "")
        | None => js_coalesce_value (echoed_answer (nth_error items i)) (JStr "")
        end /\
        isCorrect row =
        Some (JBool
                match explicit_isCorrect (nth_error items i) with
                | Some b => b
                | None => same_text (userAnswer row)
                                    (Question.correctAnswer question)
                end) /\
        (forall item text,
            submitted answers (Question.id question) = Some item ->
            submitted_answer item = Some (JStr text) ->
            userAnswer row = JStr text) /\
        (forall props text,
            submitted answers (Question.id question) = None ->
            nth_error items i = Some (JObj props) ->
            lookup_last "userAnswer" props = Some (JStr text) ->
            userAnswer row = JStr text) /\
        (List.length items <= i ->
         isCorrect row =
         Some (JBool (same_text (userAnswer row)
                                (Question.correctAnswer question)))
         /\ (submitted answers (Question.id question) = None ->
             userAnswer row = JStr "")))
  /\ (forall answers m quiz userId evaluation d i question,
         answerMap answers = Return m ->
         truthy (get_prop_opt (Some evaluation) "evaluations") = false ->
         submission_data quiz userId m evaluation = Return d ->
         nth_error (orderedQuestions quiz) i = Some question ->
         exists row,
           nth_error (questionSubmissions d) i = Some row /\
           questionId row = Question.id question /\
           userAnswer row =
           match submitted answers (Question.id question) with
           | Some item => js_or_value (submitted_answer item) (JStr "")
           | None => JStr ""
           end /\
           isCorrect row =
           Some (JBool (same_text (userAnswer row)
                                  (Question.correctAnswer question))))
  /\ (forall answers m quiz userId evaluation d i question,
         answerMap answers = Return m ->
         submission_data quiz userId m evaluation = Return d ->
         nth_error (orderedQuestions quiz) i = Some question ->
         exists row,
           nth_error (questionSubmissions d) i = Some row /\
           questionId row = Question.id question /\
           userAnswer row =
           match submitted answers (Question.id question) with
           | Some item => js_or_value (submitted_answer item) (JStr "")
           | None => js_coalesce_value (echoed_answer (ai_item evaluation i))
                                       (JStr "")
           end)
  /\ (forall m items items' i question,
         nth_error items i = nth_error items' i ->
         question_submission m (JArr items) i question
         = question_submission m (JArr items') i question)
  /\ (forall m texts items i question,
         question_submission m (JArr (retexted texts items)) i question
         = question_submission m (JArr items) i question)
  /\ stored_rows capitals_quiz "u1" [] swapped_evaluation
     = Return [ mkQuestionSubmission "q1" (JStr "Berlin") (Some (JBool true));
                mkQuestionSubmission "q2" (JStr "Lyon") (Some (JBool false)) ]
  /\ stored_rows capitals_quiz "u1"
                 [answer_item "q2" "Berlin"; answer_item "q1" "Paris"]
                 swapped_evaluation
     = Return [ mkQuestionSubmission "q1" (JStr "Paris") (Some (JBool true));
                mkQuestionSubmission "q2" (JStr "Berlin") (Some (JBool false)) ]
  /\ stored_rows capitals_quiz "u1" [answer_item "q2" "Berlin"] short_evaluation
     = Return [ mkQuestionSubmission "q1" (JStr "Lyon") (Some (JBool false));
                mkQuestionSubmission "q2" (JStr "Berlin") (Some (JBool true)) ]
  /\ stored_rows capitals_quiz "u1" [] short_evaluation
     = Return [ mkQuestionSubmission "q1" (JStr "Lyon") (Some (JBool false));
                mkQuestionSubmission "q2" (JStr "") (Some (JBool false)) ].
Proof.
  split; [|split; [|split; [|split; [|split; [|repeat split]]]]].
  - intros answers m quiz userId evaluation items d i question Hm Hitems Hd Hq.
    eexists. split; [exact (array_row _ _ _ _ _ _ _ _ Hitems Hd Hq)|].
    cbn [questionId userAnswer isCorrect].
    pose proof (stored_answer_cases answers m (nth_error items i) question Hm)
      as Hua.
    split; [reflexivity|]. split; [exact Hua|]. split; [reflexivity|].
    split; [|split].
    + intros item text Hs Ha. rewrite Hua, Hs, Ha. apply js_or_value_text.
    + intros props text Hs Hi Ht. rewrite Hua, Hs, Hi.
      cbn [echoed_answer]. now rewrite Ht.
    + intros Hlen.
      assert (Hnone : nth_error items i = None) by now apply nth_error_None.
      split.
      * now rewrite Hnone.
      * intros Hs. rewrite Hua, Hs, Hnone. reflexivity.
  - intros answers m quiz userId evaluation d i question Hm Hf Hd Hq.
    eexists. split; [exact (no_items_row _ _ _ _ _ _ _ Hf Hd Hq)|].
    cbn [questionId userAnswer isCorrect].
    split; [reflexivity|]. split; [|reflexivity].
    apply (stored_answer_cases answers m None question Hm).
  - intros answers m quiz userId evaluation d i question Hm Hd Hq.
    destruct (submission_rows _ _ _ _ _ Hd) as [_ Hrows].
    destruct (Hrows i question Hq) as [row [Hrow Hsub]].
    exists row. split; [exact Hrow|].
    rewrite question_submission_row, evaluationItems_index in Hsub.
    inversion Hsub; subst row; simpl. split; [reflexivity|].
    apply (stored_answer_cases answers m (ai_item evaluation i) question Hm).
  - intros m items items' i question H.
    rewrite !question_submission_row. cbn [get_index]. now rewrite H.
  - intros m texts items i question.
    rewrite !question_submission_row. simpl get_index.
    destruct (retexted_nth texts items i) as [H|[text [item [H1 H2]]]].
    + now rewrite H.
    + rewrite H1, H2. unfold stored_answer.
      now rewrite echoed_with_questionText, explicit_with_questionText.
Qed.

Lemma stored_answer_alignment_witness :
  exists d row,
    submission_data capitals_quiz "u1" [] swapped_evaluation = Return d /\
    nth_error (questionSubmissions d) 1 = Some row /\
    questionId row = "q2" /\
    userAnswer row = JStr "Lyon" /\
    isCorrect row = Some (JBool false).
Proof.
  destruct (proj1 stored_answer_alignment
              [] [] capitals_quiz "u1" swapped_evaluation _ _ 1
              germany_question eq_refl eq_refl eq_refl eq_refl)
    as [row [Hrow [Hid [_ [Hc [_ [Hecho _]]]]]]].
  eexists. exists row. split; [reflexivity|]. split; [exact Hrow|].
  split; [exact Hid|].
  assert (Hua : userAnswer row = JStr "Lyon")
    by exact (Hecho _ "Lyon" eq_refl eq_refl eq_refl).
  split; [exact Hua|]. rewrite Hc. reflexivity.
Defined.

End Reconciliation.

(** ** The retry helper *)

Module Retry.
Import JS Async AI Spec Samples.

Lemma withRetry_success {W A : Type} (fn : Async W A) (n : nat) (d : Z)
  (rt rt1 : Runtime W) (v : A) :
  fn rt = (Return v, rt1) -> withRetry fn n d rt = (Return v, rt1).
Proof. intros H. destruct n; simpl; now rewrite H. Qed.

Lemma withRetry_exhausted {W A : Type} (fn : Async W A) (d : Z)
  (rt rt1 : Runtime W) (e : JSError) :
  fn rt = (Throw e, rt1) -> withRetry fn 0 d rt = (Throw e, rt1).
Proof. intros H. simpl. now rewrite H. Qed.

Lemma withRetry_again {W A : Type} (fn : Async W A) (n : nat) (d : Z)
  (rt rt1 : Runtime W) (e : JSError) :
  fn rt = (Throw e, rt1) ->
  withRetry fn (S n) d rt = withRetry fn n (d * 2) (after_sleep d rt1).
Proof. intros H. simpl. now rewrite H. Qed.

Lemma withRetry_timers {W A : Type} (fn : Async W A) :
  sets_no_timer fn ->
  forall (n : nat) (d : Z) (rt : Runtime W),
  exists k,
    k <= n /\
    slept (snd (withRetry fn n d rt)) = (slept rt ++ backoff d k)%list /\
    (forall e, fst (withRetry fn n d rt) = Throw e -> k = n).
Proof.
  intros Hq. induction n as [|n IH]; intros d rt.
  - exists 0. split; [lia|]. specialize (Hq rt).
    simpl. destruct (fn rt) as [[v|e] rt1]; simpl in *;
      rewrite app_nil_r; auto.
  - destruct (fn rt) as [[v|e] rt1] eqn:E.
    + exists 0. rewrite (withRetry_success _ _ _ _ _ _ E). simpl.
      specialize (Hq rt). rewrite E in Hq. simpl in Hq.
      rewrite app_nil_r. repeat split; [lia | exact Hq | discriminate].
    + rewrite (withRetry_again _ _ _ _ _ _ E).
      destruct (IH (d * 2)%Z (after_sleep d rt1)) as [k [Hk [Hs He]]].
      exists (S k). split; [lia|]. split.
      * rewrite Hs. simpl. specialize (Hq rt). rewrite E in Hq. simpl in Hq.
        rewrite Hq, <- app_assoc. reflexivity.
      * intros e' H. f_equal. now apply (He e').
Qed.

(** C4.  With the default parameters, an operation that fulfils at once
    is not retried; one that fails twice and then fulfils returns that
    result, a timer of 700 ms and one of 1400 ms having been waited for in
    between; one that fails on the first attempt and on the three retries
    gets the error of its last attempt thrown to the caller as it is,
    timers of 700, 1400 and 2800 ms having been waited for.  The timers of
    a run are always the first ones of 700, 1400, 2800, all three when the
    run ends in an error. *)
Theorem withRetry_default_schedule :
  forall (W A : Type) (fn : Async W A) (rt : Runtime W),
    (forall v rt1,
        fn rt = (Return v, rt1) ->
        withRetry fn default_retries default_delay rt = (Return v, rt1))
    /\ (forall e1 rt1 e2 rt2 v rt3,
           fn rt = (Throw e1, rt1) ->
           fn (after_sleep 700 rt1) = (Throw e2, rt2) ->
           fn (after_sleep 1400 rt2) = (Return v, rt3) ->
           withRetry fn default_retries default_delay rt = (Return v, rt3))
    /\ (forall e1 rt1 e2 rt2 e3 rt3 e4 rt4,
           fn rt = (Throw e1, rt1) ->
           fn (after_sleep 700 rt1) = (Throw e2, rt2) ->
           fn (after_sleep 1400 rt2) = (Throw e3, rt3) ->
           fn (after_sleep 2800 rt3) = (Throw e4, rt4) ->
           withRetry fn default_retries default_delay rt = (Throw e4, rt4))
    /\ (sets_no_timer fn ->
        exists k,
          k <= 3 /\
          slept (snd (withRetry fn default_retries default_delay rt))
          = (slept rt ++ firstn k [700; 1400; 2800]%Z)%list /\
          (forall e,
              fst (withRetry fn default_retries default_delay rt) = Throw e ->
              k = 3)).
Proof.
  intros W A fn rt. unfold default_retries, default_delay.
  split; [|split; [|split]].
  - intros v rt1 H. now apply withRetry_success.
  - intros e1 rt1 e2 rt2 v rt3 H1 H2 H3.
    rewrite (withRetry_again _ _ _ _ _ _ H1).
    rewrite (withRetry_again _ _ _ _ _ _ H2).
    now apply withRetry_success.
  - intros e1 rt1 e2 rt2 e3 rt3 e4 rt4 H1 H2 H3 H4.
    rewrite (withRetry_again _ _ _ _ _ _ H1).
    rewrite (withRetry_again _ _ _ _ _ _ H2).
    rewrite (withRetry_again _ _ _ _ _ _ H3).
    now apply withRetry_exhausted.
  - intros Hq.
    destruct (withRetry_timers fn Hq 3 700%Z rt) as [k [Hk [Hs He]]].
    exists k. split; [exact Hk|]. split; [|exact He].
    rewrite Hs. f_equal.
    destruct k as [|[|[|[|k]]]]; try reflexivity. lia.
Qed.

Lemma withRetry_default_schedule_witness :
  withRetry play default_retries default_delay
    (mkRuntime [Throw (Error "429"); Throw (Error "503"); Return "ok"] [])
  = (Return "ok", mkRuntime [] [700; 1400]%Z).
Proof.
  apply (proj1 (proj2 (withRetry_default_schedule _ _ play
           (mkRuntime [Throw (Error "429"); Throw (Error "503"); Return "ok"] [])))
           (Error "429") (mkRuntime [Throw (Error "503"); Return "ok"] [])
           (Error "503") (mkRuntime [Return "ok"] [700%Z]));
    reflexivity.
Defined.

End Retry.

(** ** JSON extraction and the generation pipeline *)

Module Extraction.
Import JS Text JSONParser Async AI Spec Samples JSFacts.

Lemma JSON_parse_throws (text : string) (e : JSError) :
  JSON_parse text = Throw e -> e = SyntaxError.
Proof.
  unfold JSON_parse.
  destruct (parse_value _ text) as [[v rest]|]; [|intros H; now inversion H].
  destruct (skip_ws rest); intros H; [discriminate | now inversion H].
Qed.

(** C3.  The text of a json fence that does not parse ends the extraction
    with the [SyntaxError] of [JSON.parse]: on [fenced_garbage] each of
    the three attempts fails and the error thrown is not the "AI did not
    return valid JSON" one; on [plain_fence_then_garbage] the contents of
    the plain fence parse, and the error of the json fence is thrown
    without the plain fence being tried. *)
Theorem extractJSON_unparsable_json_fence :
  (JSON_parse fenced_garbage = Throw SyntaxError
   /\ match_json_fence fenced_garbage = Some ("not json" ++ nl)
   /\ JSON_parse ("not json" ++ nl) = Throw SyntaxError
   /\ match_any_fence fenced_garbage = Some ("json" ++ nl ++ "not json" ++ nl)
   /\ JSON_parse ("json" ++ nl ++ "not json" ++ nl) = Throw SyntaxError
   /\ extractJSON fenced_garbage = Throw SyntaxError
   /\ extractJSON fenced_garbage <> Throw (Error invalid_json_message))
  /\ (JSON_parse plain_fence_then_garbage = Throw SyntaxError
      /\ match_any_fence plain_fence_then_garbage
         = Some (nl ++ "{" ++ dq ++ "a" ++ dq ++ ":1}" ++ nl)
      /\ JSON_parse (nl ++ "{" ++ dq ++ "a" ++ dq ++ ":1}" ++ nl)
         = Return (JObj [("a", JNum 1)])
      /\ extractJSON plain_fence_then_garbage = Throw SyntaxError).
Proof.
  repeat split; try reflexivity.
  vm_compute. discriminate.
Qed.

(** C5.  An extracted response that is [null] has no [questions] key, and
    reading the key throws a [TypeError] instead of the "no quiz questions
    generated" failure; so does the whole of [generateQuiz] when the text
    of the backend is [null]. *)
Theorem generateQuiz_null_response :
  extractJSON "null" = Return JNull
  /\ questions_of JNull = Throw TypeError
  /\ questions_of JNull <> Throw (Error no_questions_message)
  /\ forall serializer : Serializer,
       fst (@generateQuiz keyed_sdk serializer groq_service
              "5" "Mathematics" 5 "medium" []
              (fresh (scripted [Return "null"])))
       = Throw TypeError.
Proof.
  split; [reflexivity|]. split; [reflexivity|]. split; [discriminate|].
  intros serializer. reflexivity.
Qed.

End Extraction.

(** ** The provider adapter *)

Module Adapter.
Import JS Text Async AI Spec Samples JSFacts SpaceFacts Retry.

Lemma withRetry_sends {A : Type} (fn : Async Remote A) (r : Request) :
  (forall rt, sent (world (snd (fn rt))) = (sent (world rt) ++ [r])%list) ->
  forall (n : nat) (d : Z) (rt : Runtime Remote),
  exists k,
    1 <= k <= S n /\
    sent (world (snd (withRetry fn n d rt))) = (sent (world rt) ++ repeat r k)%list.
Proof.
  intros Hfn. induction n as [|n IH]; intros d rt.
  - exists 1. split; [lia|]. specialize (Hfn rt). simpl.
    destruct (fn rt) as [[v|e] rt1]; exact Hfn.
  - destruct (fn rt) as [[v|e] rt1] eqn:E.
    + exists 1. split; [lia|].
      rewrite (withRetry_success _ _ _ _ _ _ E). simpl.
      specialize (Hfn rt). now rewrite E in Hfn.
    + rewrite (withRetry_again _ _ _ _ _ _ E).
      destruct (IH (d * 2)%Z (after_sleep d rt1)) as [k [Hk Hs]].
      exists (S k). split; [lia|].
      rewrite Hs. simpl. specialize (Hfn rt). rewrite E in Hfn. simpl in Hfn.
      rewrite Hfn, <- app_assoc. reflexivity.
Qed.

Section WithSDK.
Context {sdk : SDK}.

Lemma attempt_chat (this : AIService) (system user : string) (wantsJSON : bool)
  (rt : Runtime Remote) :
  provider this = "groq" \/ provider this = "openai" ->
  sent (world (snd (askAI_attempt this system user wantsJSON rt)))
  = (sent (world rt)
     ++ [chat_request_of this system user
           (if wantsJSON then Some "json_object" else None)])%list.
Proof.
  intros Hp. unfold askAI_attempt.
  assert (Hb : (provider this =? "groq") || (provider this =? "openai") = true).
  { destruct Hp as [-> | ->]; reflexivity. }
  rewrite Hb. unfold bindA, chat_completions_create. simpl.
  destruct (chat_reply (world rt) _ _) as [[|content choices]|e]; reflexivity.
Qed.

Lemma attempt_generate (this : AIService) (system user : string)
  (wantsJSON : bool) (rt : Runtime Remote) :
  provider this = "gemini" ->
  sent (world (snd (askAI_attempt this system user wantsJSON rt)))
  = (sent (world rt)
     ++ [generate_request_of this
           (system ++ nl ++ nl ++ user
            ++ (if wantsJSON then nl ++ "Return strictly valid JSON only." else ""))])%list.
Proof.
  intros Hp. unfold askAI_attempt. rewrite Hp. reflexivity.
Qed.

(** C8.  With the structured-output flag set, every request [askAI] sends
    for a groq or openai service is a chat completion whose
    [response_format] is [json_object], on the two prompts as given; every
    request for a gemini service is a content generation whose text is
    the two prompts followed by the line "Return strictly valid JSON
    only.".  [generateHint] calls [askAI] with the flag unset, so its chat
    completions carry no [response_format] and its generated text ends
    with the user prompt.  Its result is the text of the backend without
    the white space around it and nothing else: the text of the backend
    is the hint between two runs of white space, and the hint neither
    begins nor ends with white space; no JSON is extracted, a fenced block
    comes back as the text it is. *)
Theorem askAI_structured_output_and_hint :
  (forall (this : AIService) (system user : string) (rt : Runtime Remote),
      (provider this = "groq" \/ provider this = "openai" ->
       exists k,
         1 <= k <= 4 /\
         sent (world (snd (askAI this system user true rt)))
         = (sent (world rt)
            ++ repeat (chat_request_of this system user (Some "json_object")) k)%list)
      /\ (provider this = "gemini" ->
          exists k,
            1 <= k <= 4 /\
            sent (world (snd (askAI this system user true rt)))
            = (sent (world rt)
               ++ repeat (generate_request_of this
                            (system ++ nl ++ nl ++ user ++ nl
                             ++ "Return strictly valid JSON only.")) k)%list)
      /\ (forall questionText subject grade,
             generateHint this questionText subject grade rt
             = (match fst (askAI this (generateHint_systemPrompt subject grade)
                                      (generateHint_userPrompt questionText) false rt) with
                | Return raw => Return (trim raw)
                | Throw e => Throw e
                end,
                snd (askAI this (generateHint_systemPrompt subject grade)
                                (generateHint_userPrompt questionText) false rt)))
      /\ (provider this = "groq" \/ provider this = "openai" ->
          exists k,
            1 <= k <= 4 /\
            sent (world (snd (askAI this system user false rt)))
            = (sent (world rt)
               ++ repeat (chat_request_of this system user None) k)%list)
      /\ (provider this = "gemini" ->
          exists k,
            1 <= k <= 4 /\
            sent (world (snd (askAI this system user false rt)))
            = (sent (world rt)
               ++ repeat (generate_request_of this (system ++ nl ++ nl ++ user)) k)%list)
      /\ (forall questionText subject grade hintText,
             fst (generateHint this questionText subject grade rt) = Return hintText ->
             exists raw pre post,
               fst (askAI this (generateHint_systemPrompt subject grade)
                               (generateHint_userPrompt questionText) false rt)
               = Return raw
               /\ raw = pre ++ hintText ++ post
               /\ all_space pre = true /\ all_space post = true
               /\ strip_space hintText = None
               /\ (forall a b,
                      hintText = a ++ b -> all_space b = true -> b = "")))
  /\ @generateHint keyed_sdk groq_service
        "What is the capital of France?" "Geography" "5"
        (fresh (scripted [Return "  Think of the Seine. "]))
     = (Return "Think of the Seine.",
        mkRuntime
          (mkRemote
             [@chat_request_of keyed_sdk groq_service
                (generateHint_systemPrompt "Geography" "5")
                (generateHint_userPrompt "What is the capital of France?")
                None]
             (chat_reply (scripted [Return "  Think of the Seine. "]))
             (generate_reply (scripted [Return "  Think of the Seine. "])))
          [])
  /\ fst (@generateHint keyed_sdk gemini_service
             "What is the capital of France?" "Geography" "5"
             (fresh (scripted [Return (nl ++ fenced_example ++ " " ++ nl)])))
     = Return fenced_example.
Proof.
  split; [|split; reflexivity].
  intros this system user rt. unfold askAI, default_retries.
  split; [|split; [|split; [|split; [|split]]]].
  - intros Hp.
    apply (withRetry_sends _ (chat_request_of this system user (Some "json_object"))).
    intros rt0. now apply (attempt_chat this system user true).
  - intros Hp.
    apply (withRetry_sends _
             (generate_request_of this
                (system ++ nl ++ nl ++ user ++ nl ++ "Return strictly valid JSON only."))).
    intros rt0. now apply (attempt_generate this system user true).
  - intros questionText subject grade.
    unfold generateHint, bindA, retA, askAI, default_retries.
    destruct (withRetry _ 3 default_delay rt) as [[raw|e] rt']; reflexivity.
  - intros Hp.
    apply (withRetry_sends _ (chat_request_of this system user None)).
    intros rt0. now apply (attempt_chat this system user false).
  - intros Hp.
    apply (withRetry_sends _ (generate_request_of this (system ++ nl ++ nl ++ user))).
    intros rt0. rewrite (attempt_generate this system user false rt0 Hp).
    now rewrite append_empty_r.
  - intros questionText subject grade hintText.
    unfold generateHint, bindA, retA, askAI, default_retries.
    destruct (withRetry _ 3 default_delay rt) as [[raw|e] rt'];
      cbn [fst]; [|discriminate].
    intros H. inversion H; subst hintText.
    destruct (trim_spec raw) as [[pre [post [H1 [H2 H3]]]] [H4 H5]].
    exists raw, pre, post. repeat split; assumption.
Qed.

End WithSDK.

Lemma askAI_structured_output_and_hint_witness :
  (exists k,
      1 <= k <= 4 /\
      sent (world (snd (@askAI keyed_sdk groq_service "S" "U" true
                          (fresh (scripted [Return "{}"])))))
      = repeat (@chat_request_of keyed_sdk groq_service "S" "U"
                  (Some "json_object")) k)
  /\ (exists k,
         1 <= k <= 4 /\
         sent (world (snd (@askAI keyed_sdk gemini_service "S" "U" true
                             (fresh (scripted [Return "{}"])))))
         = repeat (@generate_request_of keyed_sdk gemini_service
                     ("S" ++ nl ++ nl ++ "U" ++ nl
                      ++ "Return strictly valid JSON only.")) k)
  /\ (exists raw pre post,
         fst (@askAI keyed_sdk groq_service
                (generateHint_systemPrompt "Geography" "5")
                (generateHint_userPrompt "What is the capital of France?") false
                (fresh (scripted [Return "  Think of the Seine. "]))) = Return raw
         /\ raw = pre ++ "Think of the Seine." ++ post
         /\ all_space pre = true /\ all_space post = true
         /\ strip_space "Think of the Seine." = None
         /\ (forall a b,
                "Think of the Seine." = a ++ b -> all_space b = true -> b = "")).
Proof.
  split; [|split].
  - apply (proj1 (proj1 (@askAI_structured_output_and_hint keyed_sdk)
                    groq_service "S" "U" (fresh (scripted [Return "{}"])))).
    left. reflexivity.
  - apply (proj1 (proj2 (proj1 (@askAI_structured_output_and_hint keyed_sdk)
                           gemini_service "S" "U"
                           (fresh (scripted [Return "{}"]))))).
    reflexivity.
  - destruct (proj1 (@askAI_structured_output_and_hint keyed_sdk)
                groq_service "S" "U"
                (fresh (scripted [Return "  Think of the Seine. "])))
      as [_ [_ [_ [_ [_ Hhint]]]]].
    apply (Hhint "What is the capital of France?" "Geography" "5").
    reflexivity.
Defined.

End Adapter.

(** ** The provider selector *)

Module Provider.
Import JS Text Async AI Spec Samples.

Lemma lower_upper (b : ascii) : lower_ascii (upper_ascii b) = lower_ascii b.
Proof.
  destruct b as [[] [] [] [] [] [] [] []]; reflexivity.
Qed.

Lemma toLowerCase_variant (s name : string) :
  case_variant s name = true -> toLowerCase s = toLowerCase name.
Proof.
  revert name. induction s as [|a s IH]; intros [|b name]; simpl;
    try discriminate; [reflexivity|].
  intros H. apply andb_true_iff in H. destruct H as [Hc Hr].
  rewrite (IH _ Hr). f_equal.
  apply orb_true_iff in Hc. destruct Hc as [Hc|Hc];
    apply Ascii.eqb_eq in Hc; subst a; [reflexivity | apply lower_upper].
Qed.

Section WithSDK.
Context {sdk : SDK}.

(** What the constructor does once the selector has been recognised. *)
Lemma constructor_by_provider (env : Env) :
  let p := toLowerCase (env_or (AI_PROVIDER env) "groq") in
  (p = "groq" ->
   constructor env =
   bindE (new_Groq (GROQ_API_KEY env))
         (fun c => Return (mkService "groq" c "llama-3.1-70b-versatile")))
  /\ (p = "openai" ->
      constructor env =
      bindE (new_OpenAI (OPENAI_API_KEY env))
            (fun c => Return (mkService "openai" c
                                (env_or (OPENAI_MODEL env) "gpt-4o-mini"))))
  /\ (p = "gemini" ->
      constructor env =
      bindE (new_GoogleGenerativeAI (GEMINI_API_KEY env))
            (fun c => Return (mkService "gemini" c
                                (env_or (GEMINI_MODEL env) "gemini-pro"))))
  /\ (~ In p recognised ->
      constructor env = Throw (Error invalid_provider_message)).
Proof.
  intros p. unfold constructor. fold p.
  repeat split.
  - intros ->. reflexivity.
  - intros ->. reflexivity.
  - intros ->. reflexivity.
  - intros Hn.
    destruct (p =? "groq") eqn:E1.
    { apply String.eqb_eq in E1. exfalso. apply Hn. rewrite E1. simpl. auto. }
    destruct (p =? "openai") eqn:E2.
    { apply String.eqb_eq in E2. exfalso. apply Hn. rewrite E2. simpl. auto. }
    destruct (p =? "gemini") eqn:E3.
    { apply String.eqb_eq in E3. exfalso. apply Hn. rewrite E3. simpl. auto. }
    reflexivity.
Qed.

(** C10.  A selector that is one of the three recognised values with any
    of its letters in upper case is accepted: the constructor builds the
    client of that backend and the service of that provider, exactly as
    for the lower-case value. *)
Theorem constructor_case_insensitive :
  forall (env : Env) (s name : string),
    In name recognised ->
    case_variant s name = true ->
    constructor (with_provider (Some s) env)
    = constructor (with_provider (Some name) env)
    /\ (name = "groq" ->
        constructor (with_provider (Some s) env) =
        bindE (new_Groq (GROQ_API_KEY env))
              (fun c => Return (mkService "groq" c "llama-3.1-70b-versatile")))
    /\ (name = "openai" ->
        constructor (with_provider (Some s) env) =
        bindE (new_OpenAI (OPENAI_API_KEY env))
              (fun c => Return (mkService "openai" c
                                  (env_or (OPENAI_MODEL env) "gpt-4o-mini"))))
    /\ (name = "gemini" ->
        constructor (with_provider (Some s) env) =
        bindE (new_GoogleGenerativeAI (GEMINI_API_KEY env))
              (fun c => Return (mkService "gemini" c
                                  (env_or (GEMINI_MODEL env) "gemini-pro")))).
Proof.
  intros env s name Hin Hv.
  assert (Hname : toLowerCase name = name).
  { simpl in Hin. destruct Hin as [<-|[<-|[<-|[]]]]; reflexivity. }
  assert (Hs : toLowerCase (env_or (Some s) "groq") = name).
  { unfold env_or. destruct (s =? "") eqn:E.
    - apply String.eqb_eq in E. subst s.
      destruct name; [|discriminate Hv].
      simpl in Hin. destruct Hin as [H|[H|[H|[]]]]; discriminate H.
    - rewrite (toLowerCase_variant _ _ Hv). exact Hname. }
  assert (Hn : toLowerCase (env_or (Some name) "groq") = name).
  { simpl in Hin. destruct Hin as [<-|[<-|[<-|[]]]]; reflexivity. }
  destruct (constructor_by_provider (with_provider (Some s) env))
    as [G1 [O1 [M1 _]]].
  destruct (constructor_by_provider (with_provider (Some name) env))
    as [G2 [O2 [M2 _]]].
  simpl in G1, O1, M1, G2, O2, M2.
  change (AI_PROVIDER (with_provider (Some s) env)) with (Some s) in *.
  split; [|split; [|split]].
  - simpl in Hin. destruct Hin as [<-|[<-|[<-|[]]]].
    + now rewrite (G1 Hs), (G2 Hn).
    + now rewrite (O1 Hs), (O2 Hn).
    + now rewrite (M1 Hs), (M2 Hn).
  - intros ->. exact (G1 Hs).
  - intros ->. exact (O1 Hs).
  - intros ->. exact (M1 Hs).
Qed.

(** C7, as the code has it.  The selector is read once, by the
    constructor that runs when the process starts.  A value that is none
    of the three recognised ones, whatever its case, ends the start with
    the "Invalid AI_PROVIDER" error, so no such process ever serves a
    request; a process that serves has one of the three providers.  A
    selector that is unset or empty is no error: it selects groq. *)
Theorem start_resolves_provider :
  forall env : Env,
    (~ In (toLowerCase (env_or (AI_PROVIDER env) "groq")) recognised ->
     start env = Crashed (Error invalid_provider_message))
    /\ (forall service, start env = Serving service ->
                        In (provider service) recognised)
    /\ (AI_PROVIDER env = None \/ AI_PROVIDER env = Some "" ->
        constructor env =
        bindE (new_Groq (GROQ_API_KEY env))
              (fun c => Return (mkService "groq" c "llama-3.1-70b-versatile")))
    /\ List.length recognised = 3.
Proof.
  intros env.
  destruct (constructor_by_provider env) as [G [O [M X]]]. simpl in G, O, M, X.
  split; [|split; [|split]].
  - intros Hn. unfold start. now rewrite (X Hn).
  - intros service. unfold start, constructor.
    destruct (toLowerCase (env_or (AI_PROVIDER env) "groq") =? "groq") eqn:E1.
    { destruct (new_Groq _); simpl; intros H; inversion H; subst; simpl.
      apply String.eqb_eq in E1. rewrite E1. simpl. auto. }
    destruct (toLowerCase (env_or (AI_PROVIDER env) "groq") =? "openai") eqn:E2.
    { destruct (new_OpenAI _); simpl; intros H; inversion H; subst; simpl.
      apply String.eqb_eq in E2. rewrite E2. simpl. auto. }
    destruct (toLowerCase (env_or (AI_PROVIDER env) "groq") =? "gemini") eqn:E3.
    { destruct (new_GoogleGenerativeAI _); simpl; intros H; inversion H; subst; simpl.
      apply String.eqb_eq in E3. rewrite E3. simpl. auto. }
    discriminate.
  - intros [H|H]; apply G; rewrite H; reflexivity.
  - reflexivity.
Qed.

End WithSDK.

Lemma constructor_case_insensitive_witness :
  @constructor keyed_sdk (with_provider (Some "OpenAI") keys_only)
  = @constructor keyed_sdk (with_provider (Some "openai") keys_only).
Proof.
  apply (proj1 (@constructor_case_insensitive keyed_sdk keys_only
                  "OpenAI" "openai"
                  (or_intror (or_introl eq_refl)) eq_refl)).
Defined.

Lemma start_resolves_provider_witness :
  @start keyed_sdk (with_provider (Some "claude") keys_only)
  = Crashed (Error invalid_provider_message).
Proof.
  apply (proj1 (@start_resolves_provider keyed_sdk
                  (with_provider (Some "claude") keys_only))).
  vm_compute. intros [H|[H|[H|[]]]]; discriminate H.
Defined.

(** C7 as stated fails: with the selector unset and a groq key in the
    environment, the process starts and serves with the groq service. *)
Lemma unset_selector_is_not_fatal :
  ~ (forall env : Env,
        AI_PROVIDER env = None ->
        exists e, @start keyed_sdk env = Crashed e).
Proof.
  intros H. destruct (H keys_only eq_refl) as [e He].
  vm_compute in He. discriminate He.
Qed.

End Provider.
(** ** Doubles: when a quotient times 100 is finite *)

Module FloatFacts.
Import JS Routes Spec.
Local Open Scope Z_scope.
































(** ** The product with 100, exactly *)















End FloatFacts.


(** ** Score, maximum and percentage of a submission *)

Module Percentage.
Import JS Async AI Routes Spec Samples JSFacts FloatFacts.

(** The numbers of a stored submission, from the evaluation. *)
Lemma submission_numbers (quiz : Quiz.t) (userId : string) (m : Map)
  (evaluation : JSON) (d : SubmissionData) :
  submission_data quiz userId m evaluation = Return d ->
  JNum (score d)
  = js_or_value (get_prop_opt (Some evaluation) "score") (JNum 0)
  /\ JNum (maxScore d) = maxScore_when_truthy evaluation quiz
  /\ percentage d = percentage_of (score d) (maxScore d).
Proof.
  unfold submission_data, maxScore_when_truthy, get_prop_opt. intros H.
  bind_inv H. inversion H; subst d; cbn [score maxScore percentage]. clear H.
  rewrite Ha, Ha0.
  unfold number_column in Ha2, Ha3.
  destruct (js_or_value a (JNum 0)); try discriminate.
  destruct (js_or_value a0 _); try discriminate.
  inversion Ha2; inversion Ha3; subst. auto.
Qed.

(** The handler reads four keys of the evaluation and no other. *)
Lemma submission_data_keys (quiz : Quiz.t) (userId : string) (m : Map)
  (props props' : list (string * JSON)) :
  (forall k, k <> "percentage" -> lookup_last k props = lookup_last k props') ->
  submission_data quiz userId m (JObj props)
  = submission_data quiz userId m (JObj props').
Proof.
  intros H. unfold submission_data, get_prop_opt, get_prop.
  rewrite (H "evaluations"), (H "improvements"), (H "score"), (H "maxScore")
    by discriminate.
  reflexivity.
Qed.

Lemma float_neq (x y : float) (f : float -> bool) : f x <> f y -> x <> y.
Proof. intros H E. apply H. now rewrite E. Qed.

(** C6 as stated fails: an AI [maxScore] that is present and zero is not
    the divisor; the quiz's stored maximum is. *)
Lemma present_maxScore_not_used :
  ~ (forall d,
        submission_data paris_quiz "u1" [] zero_maxScore_evaluation = Return d ->
        percentage d
        = percentage_of (score d)
            (maxScore_when_present zero_maxScore_evaluation paris_quiz)).
Proof.
  intros H.
  specialize (H _ eq_refl). vm_compute in H.
  revert H. apply (float_neq _ _ is_infinity). vm_compute. discriminate.
Qed.

(** C6, as the code has it.  The stored percentage is the stored score
    divided by the stored maximum, times 100; the stored score is the
    AI's score when that is truthy and 0 otherwise; the stored maximum is
    the AI's [maxScore] when that is truthy (present, not zero) and the
    quiz's stored maximum otherwise.  No other key of the AI's response is
    read, so a percentage it carries changes nothing.  A score of 7 out of
    10 gives exactly 70. *)
Theorem percentage_computed_locally :
  (forall quiz userId m evaluation d,
      submission_data quiz userId m evaluation = Return d ->
      percentage d = (score d / maxScore d * 100)%float
      /\ JNum (score d)
         = js_or_value (get_prop_opt (Some evaluation) "score") (JNum 0)
      /\ JNum (maxScore d) = maxScore_when_truthy evaluation quiz)
  /\ (forall quiz userId m props props',
         (forall k, k <> "percentage" ->
                    lookup_last k props = lookup_last k props') ->
         submission_data quiz userId m (JObj props)
         = submission_data quiz userId m (JObj props'))
  /\ percentage_of 7 10 = 70%float
  /\ (exists d,
         submission_data paris_quiz "u1" [] evaluation_with_percentage = Return d
         /\ percentage d = 70%float).
Proof.
  split; [|split; [|split]].
  - intros quiz userId m evaluation d H.
    destruct (submission_numbers _ _ _ _ _ H) as [Hs [Hm Hp]].
    repeat split; assumption.
  - intros quiz userId m props props'. apply submission_data_keys.
  - reflexivity.
  - eexists. split; reflexivity.
Qed.

Lemma percentage_computed_locally_witness :
  exists d,
    submission_data paris_quiz "u1" [] zero_maxScore_evaluation = Return d /\
    JNum (maxScore d) = JNum 10.
Proof.
  eexists. split; [reflexivity|].
  apply (proj1 percentage_computed_locally paris_quiz "u1" []
           zero_maxScore_evaluation _ eq_refl).
Defined.











End Percentage.

(** ** More about the service *)

Module ServiceProperties.
Import JS Text JSONParser Async AI Spec Samples JSFacts TextFacts SpaceFacts
       Retry Adapter Extraction.

Lemma backoff_nth (d : Z) (k j : nat) :
  j < k -> nth_error (backoff d k) j = Some (d * 2 ^ Z.of_nat j)%Z.
Proof.
  revert d j. induction k as [|k IH]; intros d j Hj; [lia|].
  destruct j as [|j].
  - simpl. f_equal. lia.
  - cbn [backoff nth_error]. rewrite IH by lia. f_equal.
    rewrite Nat2Z.inj_succ, Z.pow_succ_r by lia. lia.
Qed.

(** X1.  Whatever the budget and the first delay, the timers a retried
    operation waits for are the first delay doubled again and again, one
    timer per failed attempt that is retried: never more than the budget,
    and the whole budget when the run ends in an error. *)
Theorem withRetry_backoff :
  forall (W A : Type) (fn : Async W A),
    sets_no_timer fn ->
    forall (retries : nat) (delay : Z) (rt : Runtime W),
    exists k,
      k <= retries /\
      slept (snd (withRetry fn retries delay rt)) = (slept rt ++ backoff delay k)%list /\
      (forall j, j < k ->
                 nth_error (backoff delay k) j = Some (delay * 2 ^ Z.of_nat j)%Z) /\
      (forall e, fst (withRetry fn retries delay rt) = Throw e -> k = retries).
Proof.
  intros W A fn Hq retries delay rt.
  destruct (withRetry_timers fn Hq retries delay rt) as [k [Hk [Hs He]]].
  exists k. repeat split; try assumption.
  intros j Hj. now apply backoff_nth.
Qed.

Lemma play_sets_no_timer : sets_no_timer play.
Proof. intros [w s]. unfold play. simpl. destruct w; reflexivity. Qed.

Lemma withRetry_backoff_witness :
  exists k,
    k <= 5 /\
    slept (snd (withRetry play 5 100
                  (mkRuntime [Throw (Error "a"); Throw (Error "b"); Return "ok"] [])))
    = backoff 100 k.
Proof.
  destruct (withRetry_backoff _ _ play play_sets_no_timer 5 100%Z
              (mkRuntime [Throw (Error "a"); Throw (Error "b"); Return "ok"] []))
    as [k [Hk [Hs _]]].
  exists k. split; [exact Hk | exact Hs].
Defined.

(** X2.  The helper throws exactly when the first attempt and every retry
    fail, and then it throws the error of the last attempt; the runtime it
    leaves is the one that attempt left. *)
Theorem withRetry_throws_iff :
  forall (W A : Type) (fn : Async W A) (retries : nat) (delay : Z)
         (rt : Runtime W) (e : JSError) (rt' : Runtime W),
    withRetry fn retries delay rt = (Throw e, rt')
    <-> fails_in_a_row fn (S retries) delay rt e rt'.
Proof.
  intros W A fn retries. induction retries as [|n IH]; intros delay rt e rt'.
  - split.
    + simpl. destruct (fn rt) as [[v|e0] rt0] eqn:E; intros H; inversion H; subst.
      now apply fails_once.
    + intros H. inversion H; subst.
      * now apply withRetry_exhausted.
      * match goal with H1 : fails_in_a_row _ 0 _ _ _ _ |- _ => inversion H1 end.
  - split.
    + destruct (fn rt) as [[v|e0] rt0] eqn:E.
      * rewrite (withRetry_success _ _ _ _ _ _ E). discriminate.
      * rewrite (withRetry_again _ _ _ _ _ _ E). intros H.
        apply fails_again with (e0 := e0) (rt0 := rt0); [exact E|].
        now apply IH.
    + intros H. inversion H; subst.
      match goal with
      | H1 : fn rt = (Throw _, _), H2 : fails_in_a_row _ (S n) _ _ _ _ |- _ =>
          rewrite (withRetry_again _ _ _ _ _ _ H1); now apply IH
      end.
Qed.

Lemma withRetry_throws_iff_witness :
  fails_in_a_row play 2 700
    (mkRuntime [Throw (Error "a"); Throw (Error "b")] [])
    (Error "b") (mkRuntime [] [700%Z]).
Proof.
  apply (proj1 (withRetry_throws_iff _ _ play 1 700%Z
                  (mkRuntime [Throw (Error "a"); Throw (Error "b")] [])
                  (Error "b") (mkRuntime [] [700%Z]))).
  reflexivity.
Defined.

(** X3.  The helper returns exactly the value of the first attempt that
    fulfils, provided no more attempts failed before it than there are
    retries. *)
Theorem withRetry_returns_iff :
  forall (W A : Type) (fn : Async W A) (retries : nat) (delay : Z)
         (rt : Runtime W) (v : A) (rt' : Runtime W),
    withRetry fn retries delay rt = (Return v, rt')
    <-> exists k, k <= retries /\ fulfils_after fn k delay rt v rt'.
Proof.
  intros W A fn retries. induction retries as [|n IH]; intros delay rt v rt'.
  - split.
    + simpl. destruct (fn rt) as [[v0|e0] rt0] eqn:E; intros H; inversion H; subst.
      exists 0. split; [lia | now apply fulfils_now].
    + intros [k [Hk H]]. assert (k = 0) by lia. subst k.
      inversion H; subst. now apply withRetry_success.
  - split.
    + destruct (fn rt) as [[v0|e0] rt0] eqn:E.
      * rewrite (withRetry_success _ _ _ _ _ _ E). intros H. inversion H; subst.
        exists 0. split; [lia | now apply fulfils_now].
      * rewrite (withRetry_again _ _ _ _ _ _ E). intros H.
        apply IH in H. destruct H as [k [Hk H]].
        exists (S k). split; [lia|].
        now apply fulfils_later with (e0 := e0) (rt0 := rt0).
    + intros [k [Hk H]]. inversion H; subst.
      * now apply withRetry_success.
      * match goal with
        | H1 : fn rt = (Throw _, _) |- _ =>
            rewrite (withRetry_again _ _ _ _ _ _ H1)
        end.
        apply IH. eexists. split; [|eassumption]. lia.
Qed.

Lemma withRetry_returns_iff_witness :
  exists k,
    k <= 3 /\
    fulfils_after play k 700
      (mkRuntime [Throw (Error "a"); Return "ok"] []) "ok" (mkRuntime [] [700%Z]).
Proof.
  apply (proj1 (withRetry_returns_iff _ _ play 3 700%Z
                  (mkRuntime [Throw (Error "a"); Return "ok"] [])
                  "ok" (mkRuntime [] [700%Z]))).
  reflexivity.
Defined.

(** X4.  The "AI did not return valid JSON" error is thrown exactly for a text
    that does not parse and has no fenced block at all; in particular for
    every text without a backtick that does not parse. *)
Theorem extractJSON_typed_error_iff :
  forall text : string,
    (extractJSON text = Throw (Error invalid_json_message)
     <-> (JSON_parse text = Throw SyntaxError /\ match_any_fence text = None))
    /\ (has_backtick text = false ->
        JSON_parse text = Throw SyntaxError ->
        extractJSON text = Throw (Error invalid_json_message)).
Proof.
  intros text.
  assert (Hback : JSON_parse text = Throw SyntaxError ->
                  match_any_fence text = None ->
                  extractJSON text = Throw (Error invalid_json_message)).
  { intros Hp Hn. unfold extractJSON. rewrite Hp.
    destruct (match_json_fence text) as [g|] eqn:G.
    - destruct (match_json_is_match_any _ _ G) as [b Hb]. congruence.
    - now rewrite Hn. }
  split; [split|].
  - unfold extractJSON.
    destruct (JSON_parse text) as [v|e] eqn:P; [discriminate|].
    rewrite (JSON_parse_throws _ _ P).
    destruct (match_json_fence text) as [g|] eqn:G.
    + intros H. apply JSON_parse_throws in H. discriminate H.
    + destruct (match_any_fence text) as [g|] eqn:F; [|now split].
      intros H. apply JSON_parse_throws in H. discriminate H.
  - intros [Hp Hn]. now apply Hback.
  - intros Hb Hp. apply Hback; [exact Hp|]. now apply no_backtick_no_fence.
Qed.

Lemma extractJSON_typed_error_iff_witness :
  extractJSON "I cannot help with that." = Throw (Error invalid_json_message).
Proof.
  apply (proj2 (extractJSON_typed_error_iff "I cannot help with that."));
    reflexivity.
Defined.

(** X5.  A reply made of prose without backtick and then a json fence whose
    payload has no backtick is extracted as the payload without its
    leading white space is parsed, whatever follows the closing fence;
    provided the reply as a whole is not JSON. *)
Theorem extractJSON_json_fence :
  forall prose payload rest : string,
    has_backtick prose = false ->
    has_backtick payload = false ->
    JSON_parse (prose ++ "```json" ++ payload ++ "```" ++ rest) = Throw SyntaxError ->
    extractJSON (prose ++ "```json" ++ payload ++ "```" ++ rest)
    = JSON_parse (trimStart payload).
Proof.
  intros prose payload rest Hp Hb Hparse.
  unfold extractJSON. rewrite Hparse.
  change ("```" ++ rest) with (fence ++ rest).
  now rewrite (match_json_fence_payload prose payload rest Hp Hb).
Qed.

Lemma extractJSON_json_fence_witness :
  extractJSON fenced_example = Return (JObj [("a", JNum 1)]).
Proof.
  apply (extractJSON_json_fence "Sure! "
           (nl ++ "{" ++ dq ++ "a" ++ dq ++ ":1}" ++ nl) "");
    reflexivity.
Defined.

Lemma lengths_nonzero :
  forallb (fun n => negb (PrimFloat.eqb (float_of_nat n) 0)) (seq 1 1000) = true.
Proof. vm_compute. reflexivity. Qed.

Lemma truthy_length (v : JSON) :
  truthy (Some v) = true -> exists len, get_prop (Some v) "length" = Return len.
Proof.
  destruct v; simpl; try discriminate; intros _; eexists; reflexivity.
Qed.

(** X6.  The check [generateQuiz] makes on an extracted response other than
    [null]: a missing [questions] key and an empty array are the "no quiz
    questions generated" failure, which is the only error of the check; a
    non-empty array (of up to a thousand items, their number being
    compared in binary64) is returned as it was extracted, whatever its
    items are; and whatever is returned is the value under [questions]. *)
Theorem questions_of_cases :
  forall parsed : JSON,
    parsed <> JNull ->
    (get_prop_opt (Some parsed) "questions" = None \/
     get_prop_opt (Some parsed) "questions" = Some (JArr []) ->
     questions_of parsed = Throw (Error no_questions_message))
    /\ (forall q qs,
           get_prop_opt (Some parsed) "questions" = Some (JArr (q :: qs)) ->
           List.length (q :: qs) <= 1000 ->
           questions_of parsed = Return (Some (JArr (q :: qs))))
    /\ (forall v,
           questions_of parsed = Return v ->
           v = get_prop_opt (Some parsed) "questions" /\ truthy v = true)
    /\ (forall e,
           questions_of parsed = Throw e -> e = Error no_questions_message).
Proof.
  intros parsed Hnn.
  assert (Hget : get_prop (Some parsed) "questions"
                 = Return (get_prop_opt (Some parsed) "questions")).
  { unfold get_prop_opt. destruct parsed; try reflexivity. contradiction. }
  unfold questions_of. rewrite Hget. cbn [bindE].
  split; [|split; [|split]].
  - intros [H|H]; rewrite H; reflexivity.
  - intros q qs H Hlen. rewrite H. cbn [truthy negb get_prop bindE].
    change ("length" =? "length") with true. cbv iota.
    pose proof lengths_nonzero as Hall. rewrite forallb_forall in Hall.
    assert (Hin : In (List.length (q :: qs)) (seq 1 1000))
      by (apply in_seq; simpl in *; lia).
    specialize (Hall _ Hin). apply negb_true_iff in Hall.
    cbn [bindE]. unfold strict_eq. now rewrite Hall.
  - intros v.
    destruct (truthy (get_prop_opt (Some parsed) "questions")) eqn:T;
      cbn [negb]; [|discriminate].
    destruct (get_prop_opt (Some parsed) "questions") as [x|] eqn:Q;
      [|discriminate T].
    destruct (truthy_length x T) as [len Hl]. rewrite Hl. cbn [bindE].
    destruct (strict_eq len (Some (JNum 0))); [discriminate|].
    intros H. inversion H; subst. now split.
  - intros e.
    destruct (truthy (get_prop_opt (Some parsed) "questions")) eqn:T;
      cbn [negb]; [|intros H; now inversion H].
    destruct (get_prop_opt (Some parsed) "questions") as [x|] eqn:Q;
      [|discriminate T].
    destruct (truthy_length x T) as [len Hl]. rewrite Hl. cbn [bindE].
    destruct (strict_eq len (Some (JNum 0))); [|discriminate].
    intros H. now inversion H.
Qed.

Lemma questions_of_cases_witness :
  questions_of (JObj [("questions", JArr [JStr "not a question"])])
  = Return (Some (JArr [JStr "not a question"])).
Proof.
  apply (proj1 (proj2 (questions_of_cases
                         (JObj [("questions", JArr [JStr "not a question"])])
                         ltac:(discriminate)))
           (JStr "not a question") []).
  - reflexivity.
  - simpl. lia.
Defined.

Section WithSDK.
Context {sdk : SDK}.

(** X7.  A service whose provider is none of the three, which the constructor
    never builds, fails every attempt with the "Invalid AI provider
    configured" error; the error is retried like any other: four
    attempts, the three timers, and no request to any backend. *)
Theorem askAI_unknown_provider :
  forall (this : AIService) (system user : string) (wantsJSON : bool)
         (rt : Runtime Remote),
    ~ In (provider this) recognised ->
    askAI this system user wantsJSON rt
    = (Throw (Error "❌ Invalid AI provider configured."),
       mkRuntime (world rt) (slept rt ++ [700; 1400; 2800]%Z)).
Proof.
  intros this system user wantsJSON rt Hn.
  assert (Hat : forall rt0,
             askAI_attempt this system user wantsJSON rt0
             = (Throw (Error "❌ Invalid AI provider configured."), rt0)).
  { intros rt0. unfold askAI_attempt.
    destruct (provider this =? "groq") eqn:E1.
    { apply String.eqb_eq in E1. exfalso. apply Hn. rewrite E1. simpl. auto. }
    destruct (provider this =? "openai") eqn:E2.
    { apply String.eqb_eq in E2. exfalso. apply Hn. rewrite E2. simpl. auto. }
    destruct (provider this =? "gemini") eqn:E3.
    { apply String.eqb_eq in E3. exfalso. apply Hn. rewrite E3. simpl. auto. }
    reflexivity. }
  unfold askAI, default_retries, default_delay.
  rewrite (withRetry_again _ _ _ _ _ _ (Hat rt)).
  rewrite (withRetry_again _ _ _ _ _ _ (Hat _)).
  rewrite (withRetry_again _ _ _ _ _ _ (Hat _)).
  rewrite (withRetry_exhausted _ _ _ _ _ (Hat _)).
  unfold after_sleep. simpl. rewrite <- !app_assoc. reflexivity.
Qed.

(** X8.  When the backend answers the first request of a groq or openai
    service, [askAI] returns the message content of the first choice and
    of no other; it has sent that one request and waited for no timer. *)
Theorem askAI_first_choice :
  forall (this : AIService) (system user : string) (wantsJSON : bool)
         (rt : Runtime Remote) (content : string) (others : list string),
    provider this = "groq" \/ provider this = "openai" ->
    chat_reply (world rt) (List.length (sent (world rt)))
      (mkChat (model this) [("system", system); ("user", user)] temperature
              (if wantsJSON then Some "json_object" else None))
    = Return (content :: others) ->
    askAI this system user wantsJSON rt
    = (Return content,
       mkRuntime
         (record_request
            (chat_request_of this system user
               (if wantsJSON then Some "json_object" else None))
            (world rt))
         (slept rt)).
Proof.
  intros this system user wantsJSON rt content others Hp Hreply.
  unfold askAI. apply withRetry_success.
  unfold askAI_attempt.
  assert (Hb : (provider this =? "groq") || (provider this =? "openai") = true).
  { destruct Hp as [-> | ->]; reflexivity. }
  rewrite Hb. unfold bindA, chat_completions_create. rewrite Hreply.
  reflexivity.
Qed.

(** X9.  A hint is the text of the backend without the white space around it:
    it neither begins nor ends with white space, and the text of the
    backend is the hint between two runs of white space. *)
Theorem generateHint_trimmed :
  forall (this : AIService) (questionText subject grade : string)
         (rt : Runtime Remote) (hintText : string),
    fst (generateHint this questionText subject grade rt) = Return hintText ->
    exists raw pre post,
      fst (askAI this (generateHint_systemPrompt subject grade)
                      (generateHint_userPrompt questionText) false rt) = Return raw
      /\ raw = pre ++ hintText ++ post
      /\ all_space pre = true /\ all_space post = true
      /\ strip_space hintText = None
      /\ (forall a b, hintText = a ++ b -> all_space b = true -> b = "").
Proof.
  intros this questionText subject grade rt hintText.
  unfold generateHint, bindA, retA.
  destruct (askAI _ _ _ false rt) as [[raw|e] rt']; simpl; [|discriminate].
  intros H. inversion H; subst hintText.
  destruct (trim_spec raw) as [[pre [post [H1 [H2 H3]]]] [H4 H5]].
  exists raw, pre, post. repeat split; assumption.
Qed.

End WithSDK.

Lemma askAI_unknown_provider_witness :
  @askAI keyed_sdk (@mkService keyed_sdk "claude" None "m") "S" "U" true
         (fresh (scripted []))
  = (Throw (Error "❌ Invalid AI provider configured."),
     mkRuntime (scripted []) [700; 1400; 2800]%Z).
Proof.
  apply (@askAI_unknown_provider keyed_sdk (@mkService keyed_sdk "claude" None "m")
           "S" "U" true (fresh (scripted []))).
  simpl. intros [H|[H|[H|[]]]]; discriminate H.
Defined.

Lemma askAI_first_choice_witness :
  fst (@askAI keyed_sdk groq_service "S" "U" true
         (fresh (scripted [Return "first"])))
  = Return "first".
Proof.
  rewrite (@askAI_first_choice keyed_sdk groq_service "S" "U" true
             (fresh (scripted [Return "first"])) "first" []);
    [reflexivity | left; reflexivity | reflexivity].
Defined.

Lemma generateHint_trimmed_witness :
  exists raw pre post,
    fst (@askAI keyed_sdk groq_service
           (generateHint_systemPrompt "Geography" "5")
           (generateHint_userPrompt "What is the capital of France?") false
           (fresh (scripted [Return "  Think of the Seine. "]))) = Return raw
    /\ raw = pre ++ "Think of the Seine." ++ post
    /\ all_space pre = true /\ all_space post = true
    /\ strip_space "Think of the Seine." = None
    /\ (forall a b, "Think of the Seine." = a ++ b -> all_space b = true -> b = "").
Proof.
  apply (@generateHint_trimmed keyed_sdk groq_service
           "What is the capital of France?" "Geography" "5"
           (fresh (scripted [Return "  Think of the Seine. "]))).
  reflexivity.
Defined.

End ServiceProperties.

(** ** More about the routes *)

Module RouteProperties.
Import JS Text Async AI Routes Spec Samples JSFacts Reconcile SpaceFacts
       ServiceProperties.

Lemma insert_question_perm (q : Question.t) (l : list Question.t) :
  Permutation (insert_question q l) (q :: l).
Proof.
  induction l as [|x l IH]; simpl.
  - apply Permutation_refl.
  - destruct (Question.questionNumber q <=? Question.questionNumber x)%Z.
    + apply Permutation_refl.
    + apply perm_trans with (x :: q :: l).
      * now apply perm_skip.
      * apply perm_swap.
Qed.

Lemma insert_question_sorted (q : Question.t) (l : list Question.t) :
  StronglySorted by_number l -> StronglySorted by_number (insert_question q l).
Proof.
  induction l as [|x l IH]; simpl; intros Hs.
  - repeat constructor.
  - destruct (Question.questionNumber q <=? Question.questionNumber x)%Z eqn:E.
    + apply Z.leb_le in E. constructor; [exact Hs|].
      inversion Hs as [|? ? Hl Hx]; subst.
      constructor; [exact E|].
      eapply Forall_impl; [|exact Hx].
      intros a Ha. unfold by_number in *. lia.
    + apply Z.leb_gt in E.
      inversion Hs as [|? ? Hl Hx]; subst.
      constructor; [now apply IH|].
      apply (Permutation_Forall (Permutation_sym (insert_question_perm q l))).
      constructor; [unfold by_number; lia | exact Hx].
Qed.

Lemma insert_question_numbered (n : Z) (q : Question.t) (l : list Question.t) :
  numbered n (insert_question q l) = numbered n (q :: l).
Proof.
  unfold numbered. induction l as [|x l IH]; [reflexivity|].
  cbn [insert_question].
  destruct (Question.questionNumber q <=? Question.questionNumber x)%Z eqn:E;
    [reflexivity|].
  apply Z.leb_gt in E. cbn [filter] in *. rewrite IH.
  destruct (Question.questionNumber q =? n)%Z eqn:Eq; [|reflexivity].
  apply Z.eqb_eq in Eq.
  assert (Hx : (Question.questionNumber x =? n)%Z = false)
    by (apply Z.eqb_neq; lia).
  now rewrite Hx.
Qed.

(** X10.  The ordered questions are the questions of the quiz, each once, in
    non-decreasing question number; questions with the same number keep
    the order they had. *)
Theorem orderedQuestions_stable_sort :
  forall quiz : Quiz.t,
    Permutation (orderedQuestions quiz) (Quiz.questions quiz)
    /\ StronglySorted by_number (orderedQuestions quiz)
    /\ forall n, numbered n (orderedQuestions quiz)
                 = numbered n (Quiz.questions quiz).
Proof.
  intros quiz. unfold orderedQuestions.
  induction (Quiz.questions quiz) as [|q l [IHp [IHs IHn]]]; simpl.
  - repeat split; constructor.
  - split; [|split].
    + apply perm_trans with (q :: fold_right insert_question [] l).
      * apply insert_question_perm.
      * now apply perm_skip.
    + now apply insert_question_sorted.
    + intros n. rewrite insert_question_numbered.
      unfold numbered in *. cbn [filter]. now rewrite IHn.
Qed.

Lemma JSON_null_dec (v : JSON) : {v = JNull} + {v <> JNull}.
Proof. destruct v; [left; reflexivity | right; discriminate ..]. Qed.

Lemma get_prop_defined (v : JSON) (k : string) :
  v <> JNull -> get_prop (Some v) k = Return (get_prop_opt (Some v) k).
Proof.
  intros H. unfold get_prop_opt, get_prop.
  destruct v; try contradiction; try reflexivity;
    destruct (k =? "length"); reflexivity.
Qed.

Lemma mapiE_total {A B : Type} (f : nat -> A -> Exc B) (l : list A) :
  (forall i a, In a l -> exists b, f i a = Return b) ->
  forall i0, exists rows, mapiE f i0 l = Return rows.
Proof.
  induction l as [|a l IH]; intros H i0; simpl.
  - now eexists.
  - destruct (H i0 a (or_introl eq_refl)) as [b Hb]. rewrite Hb.
    destruct (IH (fun i x Hx => H i x (or_intror Hx)) (S i0)) as [rows Hr].
    rewrite Hr. now eexists.
Qed.

Lemma mapiE_throws {A B : Type} (f : nat -> A -> Exc B) (l : list A)
  (e : JSError) :
  forall i0, mapiE f i0 l = Throw e -> exists i a, In a l /\ f i a = Throw e.
Proof.
  induction l as [|a l IH]; intros i0; simpl; [discriminate|].
  destruct (f i0 a) as [b|e0] eqn:E; simpl.
  - destruct (mapiE f (S i0) l) as [rows|e1] eqn:M; simpl; [discriminate|].
    intros H. inversion H; subst.
    destruct (IH _ M) as [i [x [Hin Hx]]]. exists i, x. auto.
  - intros H. inversion H; subst. exists i0, a. auto.
Qed.

Lemma question_create_defined (difficulty : string) (i : nat) (q : JSON) :
  q <> JNull -> exists qc, question_create difficulty i q = Return qc.
Proof.
  intros H. unfold question_create.
  rewrite !(get_prop_defined q _ H). simpl. now eexists.
Qed.

Lemma question_create_throws (difficulty : string) (i : nat) (q : JSON)
  (e : JSError) :
  question_create difficulty i q = Throw e -> q = JNull /\ e = TypeError.
Proof.
  destruct (JSON_null_dec q) as [->|Hq].
  - intros H. inversion H. now split.
  - destruct (question_create_defined difficulty i q Hq) as [qc Hc].
    rewrite Hc. discriminate.
Qed.

(** X11.  The quiz data the generation route hands to the database: as
    many questions as the AI returned, numbered from 1 in the AI's order,
    and a maximum score of ten points per requested question whatever the
    number returned.  It is built for every array without a [null] item;
    a [null] item or a value that is not an array is a [TypeError]. *)
Theorem quiz_data_cases :
  forall (userId grade subject : string) (numQuestions : Z)
         (difficulty : string),
    (forall items d,
        quiz_data userId grade subject numQuestions difficulty
                  (Some (JArr items)) = Return d ->
        qz_maxScore d = (numQuestions * 10)%Z
        /\ qz_totalQuestions d = numQuestions
        /\ List.length (qz_questions d) = List.length items
        /\ forall i qc, nth_error (qz_questions d) i = Some qc ->
                        qc_questionNumber qc = (Z.of_nat i + 1)%Z)
    /\ (forall items,
           ~ In JNull items ->
           exists d, quiz_data userId grade subject numQuestions difficulty
                               (Some (JArr items)) = Return d)
    /\ (forall aiQuestions e,
           quiz_data userId grade subject numQuestions difficulty aiQuestions
           = Throw e ->
           e = TypeError).
Proof.
  intros userId grade subject numQuestions difficulty.
  split; [|split].
  - intros items d H. unfold quiz_data in H. bind_inv H.
    inversion H; subst d; simpl.
    destruct (mapiE_nth _ _ _ _ Ha) as [Hlen Hnth].
    repeat split; try assumption.
    intros i qc Hqc.
    assert (Hi : i < List.length items).
    { rewrite <- Hlen. apply nth_error_Some. congruence. }
    destruct (nth_error items i) as [q|] eqn:Eq;
      [|apply nth_error_None in Eq; lia].
    destruct (Hnth i q Eq) as [row [Hrow Hc]].
    rewrite Hqc in Hrow. inversion Hrow; subst row.
    unfold question_create in Hc. bind_inv Hc. inversion Hc. reflexivity.
  - intros items Hn. unfold quiz_data.
    destruct (mapiE_total (question_create difficulty) items) with (i0 := 0)
      as [rows Hr].
    { intros i a Hin. apply question_create_defined.
      intros ->. now apply Hn. }
    rewrite Hr. simpl. now eexists.
  - intros aiQuestions e. unfold quiz_data.
    destruct aiQuestions as [[| | | | items |]|];
      try (intros H; now inversion H).
    destruct (mapiE _ 0 items) as [rows|e0] eqn:M; simpl; [discriminate|].
    intros H. inversion H; subst.
    destruct (mapiE_throws _ _ _ _ M) as [i [q [_ Hq]]].
    now destruct (question_create_throws _ _ _ _ Hq).
Qed.

Lemma quiz_data_cases_witness :
  exists d,
    quiz_data "u1" "5" "Geography" 5 "easy" (Some (JArr [JObj []; JStr "x"]))
    = Return d.
Proof.
  apply (proj1 (proj2 (quiz_data_cases "u1" "5" "Geography" 5 "easy"))
           [JObj []; JStr "x"]).
  simpl. intros [H|[H|[]]]; discriminate H.
Defined.

Lemma answer_entry_defined (item : JSON) :
  item <> JNull -> answer_entry item = Return (entry_of item).
Proof.
  intros H. unfold answer_entry, entry_of.
  now rewrite !(get_prop_defined item _ H).
Qed.

Lemma answerMap_defined (answers : list JSON) :
  ~ In JNull answers ->
  mapE answer_entry answers = Return (map entry_of answers).
Proof.
  induction answers as [|a answers IH]; intros H; simpl.
  - reflexivity.
  - rewrite answer_entry_defined by (intros ->; apply H; now left).
    rewrite IH by (intros Hin; apply H; now right). reflexivity.
Qed.

Lemma answerMap_null (answers : list JSON) :
  In JNull answers -> mapE answer_entry answers = Throw TypeError.
Proof.
  induction answers as [|a answers IH]; intros H; [contradiction|].
  simpl. destruct (JSON_null_dec a) as [->|Ha]; [reflexivity|].
  rewrite (answer_entry_defined a Ha). simpl.
  rewrite IH; [reflexivity|]. destruct H as [H|H]; [congruence | exact H].
Qed.

(** X12.  The answers of a request make a map unless one of them is [null]:
    then reading its [questionId] is a [TypeError].  Any other item, an
    object or not, gives an entry. *)
Theorem answerMap_cases :
  forall answers : list JSON,
    (~ In JNull answers ->
     answerMap answers = Return (Map_new (map entry_of answers)))
    /\ (In JNull answers -> answerMap answers = Throw TypeError).
Proof.
  intros answers. unfold answerMap. split; intros H.
  - now rewrite (answerMap_defined answers H).
  - now rewrite (answerMap_null answers H).
Qed.

Lemma answerMap_cases_witness :
  answerMap [answer_item "q1" "Paris"; JNull] = Throw TypeError.
Proof.
  apply (proj2 (answerMap_cases [answer_item "q1" "Paris"; JNull])).
  right. left. reflexivity.
Defined.




Lemma js_or_value_idem (a : JSVal) :
  js_or_value (Some (js_or_value a (JStr ""))) (JStr "")
  = js_or_value a (JStr "").
Proof.
  destruct a as [x|]; [|reflexivity].
  unfold js_or_value.
  destruct (truthy (Some x)) eqn:T; [now rewrite T | reflexivity].
Qed.

(** X14.  The triples serialised into the evaluation prompt pair every ordered
    question with the answer submitted for that very question, the empty
    text standing for none. *)
Theorem evaluateQuiz_triples_aligned :
  forall (m : Map) (questions : list Question.t),
    evaluateQuiz_triples questions (userAnswers m questions)
    = map (triple_of m) questions
    /\ List.length (userAnswers m questions) = List.length questions.
Proof.
  intros m questions. split.
  - induction questions as [|q questions IH]; [reflexivity|].
    cbn [userAnswers map evaluateQuiz_triples List.hd List.tl].
    unfold userAnswers in IH. rewrite IH. unfold triple_of at 2.
    now rewrite js_or_value_idem.
  - unfold userAnswers. apply length_map.
Qed.

Lemma rows_ids (m : Map) (items : JSON) (l : list Question.t) :
  forall i0 rows,
    mapiE (question_submission m items) i0 l = Return rows ->
    map questionId rows = map Question.id l
    /\ Forall (fun row => exists b, isCorrect row = Some (JBool b)) rows
    /\ Forall (fun row => userAnswer row <> JNull) rows.
Proof.
  induction l as [|q l IH]; intros i0 rows H; simpl in H.
  - inversion H. repeat split; constructor.
  - rewrite question_submission_row in H. cbn [bindE] in H.
    bind_inv H. inversion H; subst rows.
    destruct (IH _ _ Ha) as [H1 [H2 H3]].
    split; [|split].
    + simpl. now rewrite H1.
    + constructor; [now eexists | exact H2].
    + constructor; [|exact H3]. simpl. unfold stored_answer.
      unfold js_coalesce_value.
      destruct (if nullish (answer_of m q) then _ else _) as [x|] eqn:E;
        [|discriminate].
      destruct (nullish (Some x)) eqn:N; [discriminate|].
      intros ->. discriminate N.
Qed.

(** X15.  Every question of the quiz gets exactly one stored row, in the order
    of the ordered questions, whatever the number of items the AI
    returned; every stored verdict is a boolean and no stored answer is
    [null]. *)
Theorem submission_rows_cover_quiz :
  forall (quiz : Quiz.t) (userId : string) (m : Map) (evaluation : JSON)
         (d : SubmissionData),
    submission_data quiz userId m evaluation = Return d ->
    map questionId (questionSubmissions d)
    = map Question.id (orderedQuestions quiz)
    /\ Forall (fun row => exists b, isCorrect row = Some (JBool b))
              (questionSubmissions d)
    /\ Forall (fun row => userAnswer row <> JNull) (questionSubmissions d).
Proof.
  intros quiz userId m evaluation d H. unfold submission_data in H.
  bind_inv H. inversion H; subst d; simpl.
  match goal with
  | Hr : mapiE _ 0 _ = Return _ |- _ => exact (rows_ids _ _ _ _ _ Hr)
  end.
Qed.

Lemma submission_rows_cover_quiz_witness :
  exists d,
    submission_data paris_quiz "u1" [] unjudged_evaluation = Return d /\
    map questionId (questionSubmissions d) = ["q1"].
Proof.
  eexists. split; [reflexivity|].
  apply (submission_rows_cover_quiz paris_quiz "u1" [] unjudged_evaluation _
           eq_refl).
Defined.

Section WithPlatform.
Context {sdk : SDK} {serializer : Serializer} {prisma : Prisma}.

(** X16.  A request for a quiz that does not exist is answered 404, and one for
    a quiz of another user 403, by the submission, retry and hint routes
    alike; none of them sends a request to the backend or waits for a
    timer before it answers so. *)
Theorem foreign_quiz_not_touched :
  forall (this : AIService) (userId questionId : string)
         (answers : list JSON) (body_answers : JSVal) (existing : option string)
         (rt : Runtime Remote),
    (submit this None userId answers rt
     = (Return (Status 404 "Quiz not found"), rt)
     /\ retry this None userId body_answers rt
        = (Return (Status 404 "Quiz not found"), rt)
     /\ hint this None userId questionId existing rt
        = (Return (HintStatus 404 "Quiz not found"), rt))
    /\ (forall quiz,
           Quiz.userId quiz <> userId ->
           submit this (Some quiz) userId answers rt
           = (Return (Status 403 "Unauthorized"), rt)
           /\ retry this (Some quiz) userId body_answers rt
              = (Return (Status 403 "Unauthorized"), rt)
           /\ hint this (Some quiz) userId questionId existing rt
              = (Return (HintStatus 403 "Unauthorized"), rt)).
Proof.
  intros this userId questionId answers body_answers existing rt.
  split; [repeat split|].
  intros quiz Hq. apply String.eqb_neq in Hq.
  unfold submit, retry, hint. rewrite Hq. repeat split.
Qed.

(** X17.  A [null] among the answers of a submission ends the request with a
    [TypeError] before the evaluation is asked for: nothing is sent to
    the backend. *)
Theorem submit_null_answer :
  forall (this : AIService) (quiz : Quiz.t) (answers : list JSON)
         (rt : Runtime Remote),
    In JNull answers ->
    submit this (Some quiz) (Quiz.userId quiz) answers rt
    = (Return (Failed TypeError), rt).
Proof.
  intros this quiz answers rt Hin. unfold submit.
  rewrite String.eqb_refl. cbn [negb].
  unfold bindA, liftE.
  unfold answerMap. now rewrite (answerMap_null answers Hin).
Qed.

(** X18.  The retry route does to an array of answers what the submission
    route does as far as the creation of the submission, and answers
    there; the submission route goes on to write the score of the
    submission into the quiz, and answers 500 when that write is
    rejected, the submission being created all the same.  The retry route
    takes a missing or otherwise falsy [answers] for the empty array; a
    truthy [answers] that is not an array is a [TypeError] before
    anything is sent to the backend. *)
Theorem retry_as_submit :
  forall (this : AIService) (found : option Quiz.t) (userId : string)
         (rt : Runtime Remote),
    (forall items,
        match retry this found userId (Some (JArr items)) rt with
        | (Return (Json submission), rt') =>
            exists quiz,
              found = Some quiz
              /\ submit this found userId items rt
                 = (Return
                      match quiz_update (Quiz.id quiz) (score submission) with
                      | Return _ => Json submission
                      | Throw e => Failed e
                      end, rt')
        | other => submit this found userId items rt = other
        end)
    /\ (forall answers,
           truthy answers = false ->
           retry this found userId answers rt
           = retry this found userId (Some (JArr [])) rt)
    /\ (forall quiz answers,
           found = Some quiz -> Quiz.userId quiz = userId ->
           truthy answers = true ->
           (forall items, answers <> Some (JArr items)) ->
           retry this found userId answers rt = (Return (Failed TypeError), rt)).
Proof.
  intros this found userId rt. split; [|split].
  - intros items. unfold retry, submit.
    destruct found as [quiz|]; [|reflexivity].
    destruct (negb (Quiz.userId quiz =? userId)); [reflexivity|].
    unfold bindA, liftE, retA, answerMap_unvalidated, js_or. cbn [truthy].
    destruct (answerMap items) as [m|e]; [|reflexivity].
    destruct (evaluateQuiz this _ _ rt) as [[evaluation|e] rt1]; [|reflexivity].
    destruct (submission_data quiz userId m evaluation) as [data|e];
      [|reflexivity].
    destruct (quizSubmission_create data) as [submission|e]; [|reflexivity].
    exists quiz. split; [reflexivity|].
    destruct (quiz_update (Quiz.id quiz) (score submission)) as [[]|e];
      reflexivity.
  - intros answers Hf. unfold retry, answerMap_unvalidated, js_or.
    now rewrite Hf.
  - intros quiz answers -> <- Ht Hna. unfold retry.
    rewrite String.eqb_refl. cbn [negb].
    unfold bindA, liftE, answerMap_unvalidated, js_or. rewrite Ht.
    destruct answers as [[| | | | items |]|]; try reflexivity.
    exfalso. now apply (Hna items).
Qed.


(** X20.  The generation route answers 400 to an empty grade or subject
    and to a number of questions outside 1..50 without asking the backend;
    the quiz data it builds has a maximum score of ten times the requested
    number of questions, between 10 and 500, and the difficulty "medium"
    when the request names none. *)
Theorem generate_cases :
  forall (this : AIService) (userId grade subject : string) (numQuestions : Z)
         (difficulty : option string)
         (pastQuizzes : list (string * float * string)) (rt : Runtime Remote),
    (valid_generate grade subject numQuestions = false ->
     generate this userId grade subject numQuestions difficulty pastQuizzes rt
     = (Return BadRequest, rt))
    /\ (forall d rt',
           generate this userId grade subject numQuestions difficulty
                    pastQuizzes rt
           = (Return (Created d), rt') ->
           qz_maxScore d = (numQuestions * 10)%Z
           /\ (10 <= qz_maxScore d <= 500)%Z
           /\ (difficulty = None -> qz_difficulty d = "medium")).
Proof.
  intros this userId grade subject numQuestions difficulty pastQuizzes rt.
  unfold generate. split.
  - intros H. now rewrite H.
  - intros d rt'.
    destruct (valid_generate grade subject numQuestions) eqn:V;
      cbn [negb]; [|discriminate].
    unfold bindA, liftE.
    destruct (generateQuiz _ _ _ _ _ _ rt) as [[aiQuestions|e] rt1];
      [|discriminate].
    destruct (quiz_data _ _ _ _ _ aiQuestions) as [qd|e] eqn:Q; [|discriminate].
    intros H. inversion H; subst qd rt1. clear H.
    unfold quiz_data in Q.
    destruct aiQuestions as [[| | | | items |]|]; try discriminate.
    bind_inv Q. inversion Q; subst d; simpl.
    unfold valid_generate, valid_numQuestions in V.
    apply andb_true_iff in V. destruct V as [_ V].
    apply andb_true_iff in V. destruct V as [V1 V2].
    apply Z.leb_le in V1, V2.
    repeat split; try lia. intros ->. reflexivity.
Qed.

End WithPlatform.

Lemma foreign_quiz_not_touched_witness :
  @submit keyed_sdk blank_serializer accepting_prisma groq_service
          (Some paris_quiz) "u2" [] (fresh (scripted []))
  = (Return (Status 403 "Unauthorized"), fresh (scripted [])).
Proof.
  apply (proj2 (@foreign_quiz_not_touched keyed_sdk blank_serializer
                  accepting_prisma groq_service "u2" "q1" [] None None
                  (fresh (scripted [])))
           paris_quiz).
  discriminate.
Defined.

Lemma submit_null_answer_witness :
  @submit keyed_sdk blank_serializer accepting_prisma groq_service
          (Some paris_quiz) "u1" [JNull] (fresh (scripted []))
  = (Return (Failed TypeError), fresh (scripted [])).
Proof.
  apply (@submit_null_answer keyed_sdk blank_serializer accepting_prisma
           groq_service paris_quiz [JNull] (fresh (scripted []))).
  left. reflexivity.
Defined.

Lemma retry_as_submit_witness :
  (@retry keyed_sdk blank_serializer stale_quiz_prisma groq_service
          (Some paris_quiz) "u1" (Some JNull) (fresh (scripted [Return "{}"]))
   = @retry keyed_sdk blank_serializer stale_quiz_prisma groq_service
            (Some paris_quiz) "u1" (Some (JArr []))
            (fresh (scripted [Return "{}"])))
  /\ match @retry keyed_sdk blank_serializer stale_quiz_prisma groq_service
              (Some paris_quiz) "u1" (Some (JArr []))
              (fresh (scripted [Return "{}"])) with
     | (Return (Json submission), rt') =>
         @submit keyed_sdk blank_serializer stale_quiz_prisma groq_service
                 (Some paris_quiz) "u1" [] (fresh (scripted [Return "{}"]))
         = (Return (Failed (Error "Record to update not found.")), rt')
     | _ => False
     end.
Proof.
  split.
  - apply (proj1 (proj2 (@retry_as_submit keyed_sdk blank_serializer
                           stale_quiz_prisma groq_service (Some paris_quiz)
                           "u1" (fresh (scripted [Return "{}"]))))).
    reflexivity.
  - pose proof (proj1 (@retry_as_submit keyed_sdk blank_serializer
                         stale_quiz_prisma groq_service (Some paris_quiz)
                         "u1" (fresh (scripted [Return "{}"]))) []) as H.
    destruct (@retry keyed_sdk blank_serializer stale_quiz_prisma groq_service
                (Some paris_quiz) "u1" (Some (JArr []))
                (fresh (scripted [Return "{}"])))
      as [[[submission | code message | e] | e] rt'] eqn:E;
      try (vm_compute in E; discriminate E).
    destruct H as [quiz [_ H]]. exact H.
Defined.


Lemma generate_cases_witness :
  match fst (@generate keyed_sdk blank_serializer groq_service "u1" "5"
               "Geography" 1 None []
               (fresh (scripted [Return one_question_reply]))) with
  | Return (Created d) => qz_maxScore d = 10%Z
  | _ => False
  end.
Proof.
  destruct (@generate keyed_sdk blank_serializer groq_service "u1" "5"
              "Geography" 1 None []
              (fresh (scripted [Return one_question_reply])))
    as [[[d| |e]|e] rt'] eqn:E;
    try (vm_compute in E; discriminate E).
  apply (proj2 (@generate_cases keyed_sdk blank_serializer groq_service
                  "u1" "5" "Geography" 1 None []
                  (fresh (scripted [Return one_question_reply])))
           d rt' E).
Defined.

End RouteProperties.
